(** * Product catalogue: the use-case layer and its error taxonomy

    A shallow embedding of [store/core/exceptions.py] and
    [store/usecases/product.py].  Documents are dictionaries ([gmap string
    value]), the collection is a list of documents in natural order, and every
    use-case method is a computation in a state-and-exception monad over the
    world the method runs in (collection, clock, identifier source and the
    behaviour of the environment at each collection call). *)

From Stdlib Require Import ZArith NArith String Ascii List Bool Lia.
From stdpp Require Import base option gmap strings list.

Local Open Scope Z_scope.

(** ** Python values that the use cases handle *)

(** [uuid.UUID]: the 128-bit integer [UUID.int]. *)
Definition UUID := N.

(** [datetime.datetime] (naive, UTC): microseconds since the epoch. *)
Definition DateTime := Z.

(** [decimal.Decimal], finite: [dec_coeff * 10 ^ dec_exp].  The exponent is
    part of the value's representation: 8.500 is [(8500, -3)] and 8.5 is
    [(85, -1)]; they compare equal but print differently. *)
Record Decimal := mkDecimal { dec_coeff : Z; dec_exp : Z }.

Definition dec_align (a b : Decimal) : Z * Z :=
  let e := Z.min (dec_exp a) (dec_exp b) in
  (dec_coeff a * 10 ^ (dec_exp a - e), dec_coeff b * 10 ^ (dec_exp b - e)).

(** Exact comparison: both coefficients are scaled to the smaller exponent. *)
Definition dec_ltb (a b : Decimal) : bool :=
  let '(x, y) := dec_align a b in x <? y.

Definition dec_of_Z (z : Z) : Decimal := mkDecimal z 0.

Inductive value :=
| VObjectId (n : N)
| VUuid (u : UUID)
| VStr (s : string)
| VInt (z : Z)
| VDec (d : Decimal)
| VBool (b : bool)
| VDate (t : DateTime).

Global Instance Decimal_eq_dec : EqDecision Decimal.
Proof. solve_decision. Defined.

Global Instance value_eq_dec : EqDecision value.
Proof. solve_decision. Defined.

(** *** [str(uuid)]: 32 lower-case hexadecimal digits grouped 8-4-4-4-12 *)

Definition hex_digit (n : N) : ascii :=
  match n with
  | 0 => "0" | 1 => "1" | 2 => "2" | 3 => "3" | 4 => "4" | 5 => "5"
  | 6 => "6" | 7 => "7" | 8 => "8" | 9 => "9" | 10 => "a" | 11 => "b"
  | 12 => "c" | 13 => "d" | 14 => "e" | _ => "f"
  end%N%char.

(** The [len] hexadecimal digits of [n] that end at bit [4 * lo]. *)
Fixpoint hex_field (n : N) (lo : N) (len : nat) (acc : string) : string :=
  match len with
  | O => acc
  | S len' =>
      hex_field n (lo + 1) len'
        (String (hex_digit (N.land (N.shiftr n (4 * lo)) 15)) acc)
  end.

Definition str_uuid (u : UUID) : string :=
  hex_field u 24 8 ("-" +:+ hex_field u 20 4 ("-" +:+ hex_field u 16 4
    ("-" +:+ hex_field u 12 4 ("-" +:+ hex_field u 0 12 "")))).

(** ** store/core/exceptions.py *)

Module Exceptions.

Inductive exception_class := BaseException | NotFoundException | InsertionException.

(** The class attribute [message]. *)
Definition class_message (c : exception_class) : string :=
  match c with
  | BaseException => "Internal Server Error"
  | NotFoundException => "Not Found"
  | InsertionException => "Error inserting product"
  end.

(** Truth value of an optional string: [None] and [""] are falsy. *)
Definition truthy (message : option string) : bool :=
  match message with
  | None => false
  | Some "" => false
  | Some _ => true
  end.

(** An instance: its class and its instance dictionary, which holds
    [message] only when [__init__] assigned it. *)
Record instance := mkInstance {
  cls : exception_class;
  own_message : option string
}.

(** [__init__(self, message=None)]: [if message: self.message = message]. *)
Definition init (c : exception_class) (message : option string) : instance :=
  if truthy message then mkInstance c message else mkInstance c None.

(** Attribute lookup [e.message]: the instance dictionary, then the class. *)
Definition message (e : instance) : string :=
  match own_message e with
  | Some m => m
  | None => class_message (cls e)
  end.

Global Instance exception_class_eq_dec : EqDecision exception_class.
Proof. solve_decision. Defined.

Global Instance instance_eq_dec : EqDecision instance.
Proof. solve_decision. Defined.

End Exceptions.

(** ** Exceptions and outcomes *)

(** What a call can raise.  Every constructor is a subclass of Python's
    [Exception]; the text is [str(e)]. *)
Inductive exn :=
| DuplicateKeyError (text : string)     (* pymongo.errors.DuplicateKeyError *)
| AttributeError (text : string)
| ValidationError (text : string)       (* pydantic *)
| OtherException (text : string)        (* any other subclass of Exception *)
| StoreException (e : Exceptions.instance).

(** [str(e)], as the f-strings of the use cases format a caught exception.
    The exceptions of [store.core.exceptions] receive their message by keyword
    and never forward it to [Exception.__init__], so their [args] is empty. *)
Definition str_exn (e : exn) : string :=
  match e with
  | DuplicateKeyError t | AttributeError t | ValidationError t | OtherException t => t
  | StoreException _ => ""
  end.

Inductive result (A : Type) :=
| Ok (a : A)
| Raise (e : exn).
Arguments Ok {A} a.
Arguments Raise {A} e.

Definition NotFound (message : string) : exn :=
  StoreException (Exceptions.init Exceptions.NotFoundException (Some message)).

Definition Insertion (message : string) : exn :=
  StoreException (Exceptions.init Exceptions.InsertionException (Some message)).

(** ** Schemas *)

(** Modelled from the spec: [store.schemas.product.ProductIn] is not among the
    sources; section 6 gives the create body as [{name, quantity, price,
    status}]. *)
Record ProductIn := mkProductIn {
  in_name : string;
  in_quantity : Z;
  in_price : Decimal;
  in_status : bool
}.

(** Modelled from the spec: [store.models.product.ProductModel] is not among
    the sources; section 3 gives the persisted entity its seven fields. *)
Record ProductModel := mkProductModel {
  pm_id : UUID;
  pm_name : string;
  pm_quantity : Z;
  pm_price : Decimal;
  pm_status : bool;
  pm_created_at : DateTime;
  pm_updated_at : DateTime
}.

(** Modelled from the spec: [store.schemas.product.ProductOut] and
    [ProductUpdateOut] are not among the sources; the output view carries the
    seven fields of the entity (section 6: "id, timestamps included"). *)
Record ProductOut := mkProductOut {
  out_id : UUID;
  out_name : string;
  out_quantity : Z;
  out_price : Decimal;
  out_status : bool;
  out_created_at : DateTime;
  out_updated_at : DateTime
}.

Definition ProductUpdateOut := ProductOut.

(** Modelled from the spec: [store.schemas.product.ProductUpdate] is not among
    the sources; section 6 gives the patch body as any subset of [{name,
    quantity, price, status}].  A field that was not supplied holds [None];
    [up_fields_set] records which fields the caller did supply (pydantic's
    [model_fields_set]), so a field supplied as [None] differs from an omitted
    one only there. *)
Record ProductUpdate := mkProductUpdate {
  up_name : option string;
  up_quantity : option Z;
  up_price : option Decimal;
  up_status : option bool;
  up_fields_set : gset string
}.

(** [ProductIn.model_dump()]. *)
Definition ProductIn_model_dump (body : ProductIn) : gmap string value :=
  <["name" := VStr (in_name body)]>
  (<["quantity" := VInt (in_quantity body)]>
  (<["price" := VDec (in_price body)]>
  (<["status" := VBool (in_status body)]> ∅))).

(** [ProductModel.model_dump()]. *)
Definition ProductModel_model_dump (m : ProductModel) : gmap string value :=
  <["id" := VUuid (pm_id m)]>
  (<["name" := VStr (pm_name m)]>
  (<["quantity" := VInt (pm_quantity m)]>
  (<["price" := VDec (pm_price m)]>
  (<["status" := VBool (pm_status m)]>
  (<["created_at" := VDate (pm_created_at m)]>
  (<["updated_at" := VDate (pm_updated_at m)]> ∅)))))).

Definition put {A} (k : string) (v : option A) (inj : A -> value)
    (d : gmap string value) : gmap string value :=
  match v with
  | Some a => <[k := inj a]> d
  | None => d
  end.

(** [ProductUpdate.model_dump(exclude_none=True)]: the fields whose value is
    not [None]; which fields were supplied plays no part. *)
Definition ProductUpdate_model_dump_exclude_none (body : ProductUpdate)
    : gmap string value :=
  put "name" (up_name body) VStr
  (put "quantity" (up_quantity body) VInt
  (put "price" (up_price body) VDec
  (put "status" (up_status body) VBool ∅))).

(** [ProductOut] and [ProductUpdateOut] built from a dictionary of keyword
    arguments: the seven fields are required and typed, other keys (the
    store's [_id]) are ignored. *)
Definition ProductOut_init (kw : gmap string value) : result ProductOut :=
  match kw !! "id", kw !! "name", kw !! "quantity", kw !! "price",
        kw !! "status", kw !! "created_at", kw !! "updated_at" with
  | Some (VUuid i), Some (VStr n), Some (VInt q), Some (VDec p),
    Some (VBool s), Some (VDate c), Some (VDate u) =>
      Ok (mkProductOut i n q p s c u)
  | _, _, _, _, _, _, _ => Raise (ValidationError "validation error for ProductOut")
  end.

Definition ProductUpdateOut_init : gmap string value -> result ProductUpdateOut :=
  ProductOut_init.

(** ** The world a use case runs in *)

(** What the environment does just before a collection call is served: nothing,
    make the call fail, or let another client delete a document first (the
    race of section 5). *)
Inductive event :=
| Quiet
| Fails (e : exn)
| RacingDelete (id : UUID).

Record World := mkWorld {
  docs : list (gmap string value);   (* the "products" collection, natural order *)
  unique_name : bool;                (* the unique index on "name" exists *)
  next_oid : N;                      (* the driver's ObjectId generator *)
  events : list event;               (* one per collection call still to come *)
  clock : nat -> DateTime;           (* successive readings of the UTC clock *)
  ticks : nat;
  uuid_source : nat -> UUID;         (* successive results of uuid4() *)
  uuid_draws : nat
}.

Definition set_docs (ds : list (gmap string value)) (w : World) : World :=
  mkWorld ds (unique_name w) (next_oid w) (events w) (clock w) (ticks w)
    (uuid_source w) (uuid_draws w).

Definition set_unique_name (b : bool) (w : World) : World :=
  mkWorld (docs w) b (next_oid w) (events w) (clock w) (ticks w)
    (uuid_source w) (uuid_draws w).

Definition set_next_oid (n : N) (w : World) : World :=
  mkWorld (docs w) (unique_name w) n (events w) (clock w) (ticks w)
    (uuid_source w) (uuid_draws w).

Definition set_events (evs : list event) (w : World) : World :=
  mkWorld (docs w) (unique_name w) (next_oid w) evs (clock w) (ticks w)
    (uuid_source w) (uuid_draws w).

Definition set_ticks (n : nat) (w : World) : World :=
  mkWorld (docs w) (unique_name w) (next_oid w) (events w) (clock w) n
    (uuid_source w) (uuid_draws w).

Definition set_uuid_draws (n : nat) (w : World) : World :=
  mkWorld (docs w) (unique_name w) (next_oid w) (events w) (clock w) (ticks w)
    (uuid_source w) n.

(** *** The monad: state passing with exceptions *)

Definition M (A : Type) : Type := World -> World * result A.

Definition ret {A} (a : A) : M A := fun w => (w, Ok a).

Definition raise {A} (e : exn) : M A := fun w => (w, Raise e).

Definition bind {A B} (c : M A) (k : A -> M B) : M B :=
  fun w =>
    match c w with
    | (w', Ok a) => k a w'
    | (w', Raise e) => (w', Raise e)
    end.

(** [try: c except ...: handler]; an exception raised by the handler is not
    caught again. *)
Definition try_except {A} (c : M A) (handler : exn -> M A) : M A :=
  fun w =>
    match c w with
    | (w', Ok a) => (w', Ok a)
    | (w', Raise e) => handler e w'
    end.

Definition lift {A} (r : result A) : M A := fun w => (w, r).

Notation "x <- c ;; k" := (bind c (fun x => k))
  (at level 100, c at next level, right associativity).

Fixpoint mapM {A B} (f : A -> M B) (l : list A) : M (list B) :=
  match l with
  | [] => ret []
  | a :: l' => b <- f a ;; bs <- mapM f l' ;; ret (b :: bs)
  end.

(** [datetime.datetime.utcnow()]: the next reading of the clock. *)
Definition utcnow : M DateTime :=
  fun w => (set_ticks (S (ticks w)) w, Ok (clock w (ticks w))).

(** [uuid.uuid4()]. *)
Definition uuid4 : M UUID :=
  fun w => (set_uuid_draws (S (uuid_draws w)) w, Ok (uuid_source w (uuid_draws w))).

(** Modelled from the spec: the constructor of [ProductModel] from keyword
    arguments (the model class is not among the sources).  The four caller
    fields are required and typed; [id], [created_at] and [updated_at] take
    their defaults, a fresh UUID and the current UTC time (sections 3 and 9). *)
Definition ProductModel_init (kw : gmap string value) : M ProductModel :=
  match kw !! "name", kw !! "quantity", kw !! "price", kw !! "status" with
  | Some (VStr n), Some (VInt q), Some (VDec p), Some (VBool s) =>
      i <- uuid4 ;;
      c <- utcnow ;;
      u <- utcnow ;;
      ret (mkProductModel i n q p s c u)
  | _, _, _, _ => raise (ValidationError "validation error for ProductModel")
  end.

(** ** The collection: filters and the driver's calls *)

(** The comparison operators the use cases write: [$gt] and [$lt]. *)
Inductive operator := Gt | Lt.

(** The value of a filter key: a literal to equal, or a dictionary of
    operators. *)
Inductive condition :=
| Equals (v : value)
| Operators (ops : list (operator * value)).

Definition as_number (v : value) : option Decimal :=
  match v with
  | VInt z => Some (dec_of_Z z)
  | VDec d => Some d
  | _ => None
  end.

(** The store's ordering inside a type bracket: numbers among themselves,
    dates among themselves; values of different brackets never satisfy a
    comparison operator. *)
Definition value_ltb (a b : value) : bool :=
  match as_number a, as_number b with
  | Some x, Some y => dec_ltb x y
  | _, _ =>
      match a, b with
      | VDate s, VDate t => s <? t
      | _, _ => false
      end
  end.

Definition operator_holds (field : option value) (ob : operator * value) : bool :=
  match field with
  | None => false
  | Some v =>
      match ob with
      | (Gt, bound) => value_ltb bound v
      | (Lt, bound) => value_ltb v bound
      end
  end.

Definition condition_holds (field : option value) (c : condition) : bool :=
  match c with
  | Equals v => bool_decide (field = Some v)
  | Operators ops => forallb (operator_holds field) ops
  end.

(** A document matches a filter when every key's condition holds of the
    document's field; the empty filter matches every document. *)
Definition matches (f : gmap string condition) (d : gmap string value) : bool :=
  forallb (fun kc => condition_holds (d !! fst kc) (snd kc)) (map_to_list f).

(** The first document that satisfies [p], with what precedes and follows. *)
Fixpoint split_first (p : gmap string value -> bool) (ds : list (gmap string value))
    : option (list (gmap string value) * gmap string value * list (gmap string value)) :=
  match ds with
  | [] => None
  | d :: ds' =>
      if p d then Some ([], d, ds')
      else
        match split_first p ds' with
        | Some (pre, x, post) => Some (d :: pre, x, post)
        | None => None
        end
  end.

Definition remove_first (p : gmap string value -> bool) (ds : list (gmap string value))
    : list (gmap string value) :=
  match split_first p ds with
  | Some (pre, _, post) => pre ++ post
  | None => ds
  end.

Definition by_id (id : UUID) : gmap string condition := {[ "id" := Equals (VUuid id) ]}.

(** The collection as a call finds it: the environment's event is consumed,
    and a racing delete has already taken its document. *)
Definition arrive (w : World) : World :=
  match events w with
  | [] => w
  | RacingDelete id :: evs =>
      set_events evs (set_docs (remove_first (matches (by_id id)) (docs w)) w)
  | _ :: evs => set_events evs w
  end.

(** Every call of the driver goes through here. *)
Definition collection_call {A} (op : M A) : M A :=
  fun w =>
    match events w with
    | Fails e :: _ => (arrive w, Raise e)
    | _ => op (arrive w)
    end.

(** The unique index keys a document by its [name] (absent counts as null). *)
Definition name_taken (k : option value) (ds : list (gmap string value)) : bool :=
  existsb (fun d => bool_decide (d !! "name" = k)) ds.

Definition duplicate_key_text : string := "E11000 duplicate key error collection: products".

(** [collection.create_index([("name", ASCENDING)], unique=True)]: nothing to
    do when the index exists; building it fails when two documents share a
    name. *)
Definition create_index : M unit :=
  collection_call (fun w =>
    if unique_name w then (w, Ok tt)
    else if bool_decide (NoDup (map (fun d : gmap string value => d !! "name") (docs w)))
    then (set_unique_name true w, Ok tt)
    else (w, Raise (DuplicateKeyError duplicate_key_text))).

(** [collection.insert_one(doc)]: the driver adds [_id] when the document has
    none; the unique index rejects a taken name. *)
Definition insert_one (doc : gmap string value) : M unit :=
  collection_call (fun w =>
    let '(doc', oid') :=
      match doc !! "_id" with
      | Some _ => (doc, next_oid w)
      | None => (<["_id" := VObjectId (next_oid w)]> doc, (next_oid w + 1)%N)
      end in
    if unique_name w && name_taken (doc' !! "name") (docs w)
    then (w, Raise (DuplicateKeyError duplicate_key_text))
    else (set_next_oid oid' (set_docs (docs w ++ [doc']) w), Ok tt)).

(** [collection.find_one(filter)]. *)
Definition find_one (f : gmap string condition) : M (option (gmap string value)) :=
  collection_call (fun w =>
    match split_first (matches f) (docs w) with
    | Some (_, d, _) => (w, Ok (Some d))
    | None => (w, Ok None)
    end).

(** [collection.find(filter)], iterated to the end. *)
Definition find (f : gmap string condition) : M (list (gmap string value)) :=
  collection_call (fun w => (w, Ok (List.filter (matches f) (docs w)))).

(** [collection.find_one_and_update(filter, {"$set": upd},
    return_document=AFTER)]: the first match takes the fields of [upd] in one
    step and is returned as updated; no match, no write. *)
Definition find_one_and_update (f : gmap string condition) (upd : gmap string value)
    : M (option (gmap string value)) :=
  collection_call (fun w =>
    match split_first (matches f) (docs w) with
    | Some (pre, d, post) =>
        let d' := upd ∪ d in
        if unique_name w && name_taken (d' !! "name") (pre ++ post)
        then (w, Raise (DuplicateKeyError duplicate_key_text))
        else (set_docs (pre ++ d' :: post) w, Ok (Some d'))
    | None => (w, Ok None)
    end).

(** [collection.delete_one(filter)]: the result's [deleted_count]. *)
Definition delete_one (f : gmap string condition) : M Z :=
  collection_call (fun w =>
    match split_first (matches f) (docs w) with
    | Some (pre, _, post) => (set_docs (pre ++ post) w, Ok 1)
    | None => (w, Ok 0)
    end).

(** ** store/usecases/product.py *)

(** What the module-level name [datetime] can be bound to: the standard
    module ([import datetime]) or its class of the same name ([from datetime
    import datetime]). *)
Inductive datetime_binding := DatetimeModule | DatetimeClass.

(** Line 1 of the file: [import datetime]. *)
Definition imported_datetime : datetime_binding := DatetimeModule.

Definition attribute_error_text : string :=
  "module 'datetime' has no attribute 'utcnow'".

(** The expression [datetime.utcnow()].  [utcnow] is a class method of
    [datetime.datetime]; the module [datetime] has no attribute of that
    name, so the lookup raises before anything is called. *)
Definition datetime_utcnow (datetime : datetime_binding) : M DateTime :=
  match datetime with
  | DatetimeModule => raise (AttributeError attribute_error_text)
  | DatetimeClass => utcnow
  end.

(** [not result] for what [find_one] and [find_one_and_update] return: [None]
    and the empty dictionary are falsy. *)
Definition falsy (r : option (gmap string value)) : bool :=
  match r with
  | None => true
  | Some d => bool_decide (d = ∅)
  end.

Definition not_found_message (id : UUID) : string :=
  "Product not found with filter: " +:+ str_uuid id.

Module ProductUsecase.

(** The body of the [try] in [create]. *)
Definition create_try (body : ProductIn) : M ProductModel :=
  product_model <- ProductModel_init (ProductIn_model_dump body) ;;
  _ <- create_index ;;
  _ <- insert_one (ProductModel_model_dump product_model) ;;
  ret product_model.

(** The two [except] clauses of [create], in their order. *)
Definition create_except (e : exn) : M ProductModel :=
  match e with
  | DuplicateKeyError _ => raise (Insertion "Product with this name already exists.")
  | _ => raise (Insertion ("Failed to insert product: " +:+ str_exn e))
  end.

Definition create (body : ProductIn) : M ProductOut :=
  product_model <- try_except (create_try body) create_except ;;
  lift (ProductOut_init (ProductModel_model_dump product_model)).

Definition get (id : UUID) : M ProductOut :=
  result <- find_one (by_id id) ;;
  if falsy result then raise (NotFound (not_found_message id))
  else lift (ProductOut_init (default ∅ result)).

(** The filter that [query] builds before it calls [find]. *)
Definition filter_query (min_price max_price : option Decimal) : gmap string condition :=
  let filter_query : gmap string condition := ∅ in
  match min_price, max_price with
  | Some mn, Some mx =>
      <["price" := Operators [(Gt, VDec mn); (Lt, VDec mx)]]> filter_query
  | Some mn, None => <["price" := Operators [(Gt, VDec mn)]]> filter_query
  | None, Some mx => <["price" := Operators [(Lt, VDec mx)]]> filter_query
  | None, None => filter_query
  end.

Definition query (min_price max_price : option Decimal) : M (list ProductOut) :=
  items <- find (filter_query min_price max_price) ;;
  mapM (fun item => lift (ProductOut_init item)) items.

(** The dictionary that [update] hands to [$set]: the dump of the patch
    without its [None] fields, then [updated_at] set to the reading [now]. *)
Definition update_data (body : ProductUpdate) (now : DateTime) : gmap string value :=
  let update_data := ProductUpdate_model_dump_exclude_none body in
  <["updated_at" := VDate now]> update_data.

(** [update], with the binding of the module-level name [datetime] as a
    parameter.  The dump of the patch is pure, so it is taken together with
    the assignment of [updated_at] once [datetime.utcnow()] has returned. *)
Definition update_with (datetime : datetime_binding) (id : UUID) (body : ProductUpdate)
    : M ProductUpdateOut :=
  now <- datetime_utcnow datetime ;;
  let update_data := update_data body now in
  result <- find_one_and_update (by_id id) update_data ;;
  if falsy result then raise (NotFound (not_found_message id))
  else lift (ProductUpdateOut_init (default ∅ result)).

(** [update] as the file has it, under [import datetime]. *)
Definition update (id : UUID) (body : ProductUpdate) : M ProductUpdateOut :=
  update_with imported_datetime id body.

Definition delete (id : UUID) : M bool :=
  product <- find_one (by_id id) ;;
  if falsy product then raise (NotFound (not_found_message id))
  else
    result <- delete_one (by_id id) ;;
    ret (if 0 <? result then true else false).

End ProductUsecase.

(** ** The price filter in the words of the specification *)

(** Section 4.3: both bounds, [price > min] and [price < max]; only one
    bound, that comparison; none, every product. *)
Definition open_range (min_price max_price : option Decimal) (price : Decimal) : bool :=
  match min_price, max_price with
  | Some mn, Some mx => dec_ltb mn price && dec_ltb price mx
  | Some mn, None => dec_ltb mn price
  | None, Some mx => dec_ltb price mx
  | None, None => true
  end.

(** A product as the collection holds it: what [create] inserted, with the
    [_id] the driver gave it. *)
Definition stored (oid : N) (m : ProductModel) : gmap string value :=
  <["_id" := VObjectId oid]> (ProductModel_model_dump m).

Definition view (m : ProductModel) : ProductOut :=
  mkProductOut (pm_id m) (pm_name m) (pm_quantity m) (pm_price m) (pm_status m)
    (pm_created_at m) (pm_updated_at m).

Definition stored_all (ps : list (N * ProductModel)) : list (gmap string value) :=
  map (fun p => stored (fst p) (snd p)) ps.

(** The environment leaves the next [n] collection calls undisturbed. *)
Fixpoint quiet_prefix (n : nat) (evs : list event) : Prop :=
  match n, evs with
  | O, _ | _, [] => True
  | S n', Quiet :: evs' => quiet_prefix n' evs'
  | S _, _ :: _ => False
  end.

Definition undisturbed (n : nat) (w : World) : Prop := quiet_prefix n (events w).

(** A world whose next collection call is served undisturbed. *)
Definition calm (w : World) : Prop := undisturbed 1 w.

(** ** Test fixtures *)

Definition fixture_clock (n : nat) : DateTime := 1700000000000000 + Z.of_nat n.

Definition fixture_uuid (n : nat) : UUID := (N.of_nat n + 1)%N.

Definition empty_world : World :=
  mkWorld [] false 0%N [] fixture_clock 0 fixture_uuid 0.

Definition product (i : UUID) (n : string) (q : Z) (p : Decimal) (s : bool) : ProductModel :=
  mkProductModel i n q p s 1690000000000000 1690000000000000.

(** The five products of the price-filter tests, prices to the cent. *)
Definition varied_prices : list (N * ProductModel) :=
  [ (0%N, product 1%N "Laptop Basic" 10 (mkDecimal 450000 (-2)) true);
    (1%N, product 2%N "Laptop Mid" 5 (mkDecimal 650000 (-2)) true);
    (2%N, product 3%N "Laptop High" 3 (mkDecimal 900000 (-2)) true);
    (3%N, product 4%N "Tablet" 20 (mkDecimal 300000 (-2)) false);
    (4%N, product 5%N "Smartphone" 15 (mkDecimal 700000 (-2)) true) ].

Definition varied_world : World :=
  mkWorld (stored_all varied_prices) true 5%N [] fixture_clock 10 fixture_uuid 5.

Definition names (l : list ProductOut) : list string := map out_name l.


(** The record [create] builds for [body] in [w]: the caller's four fields,
    the next UUID and the next two readings of the clock. *)
Definition new_model (body : ProductIn) (w : World) : ProductModel :=
  mkProductModel (uuid_source w (uuid_draws w)) (in_name body) (in_quantity body)
    (in_price body) (in_status body) (clock w (ticks w)) (clock w (S (ticks w))).

(** The message [create] gives the failure [e] of its [try] block, in the
    words of section 4.3. *)
Definition insertion_message (e : exn) : string :=
  match e with
  | DuplicateKeyError _ => "Product with this name already exists."
  | _ => "Failed to insert product: " +:+ str_exn e
  end.

Definition is_insertion_error (e : exn) (message : string) : Prop :=
  exists inst, e = StoreException inst
    /\ Exceptions.cls inst = Exceptions.InsertionException
    /\ Exceptions.message inst = message.

Definition is_not_found_error (e : exn) (message : string) : Prop :=
  exists inst, e = StoreException inst
    /\ Exceptions.cls inst = Exceptions.NotFoundException
    /\ Exceptions.message inst = message.

(** The first test product, "Iphone 14 Pro Max" at 8.500. *)
Definition iphone : ProductIn :=
  mkProductIn "Iphone 14 Pro Max" 10 (mkDecimal 8500 (-3)) true.

Definition with_events (evs : list event) (w : World) : World := set_events evs w.

(** The collection after the first test product was created in the empty
    world. *)
Definition iphone_world : World :=
  mkWorld [stored 0%N (new_model iphone empty_world)] true 1%N [] fixture_clock 2
    fixture_uuid 1.


(** The driver does not fail the next collection call (a racing delete may
    still precede it). *)
Definition served (w : World) : Prop :=
  match events w with
  | Fails _ :: _ => False
  | _ => True
  end.

(** The documents of a collection that carry the identifier [id]. *)
Definition with_id (id : UUID) (ds : list (gmap string value)) : list (gmap string value) :=
  List.filter (matches (by_id id)) ds.

(** No stored product matches [id]. *)
Definition absent (id : UUID) (ds : list (gmap string value)) : Prop :=
  forall d, In d ds -> d !! "id" <> Some (VUuid id).

(** The identifier of the "not found" tests. *)
Definition unknown_id : UUID := 0x1e4f214e85f7461a89d0a751a32e3bb9%N.


(** The patch of the update tests: the price set to 7.500, nothing else
    supplied. *)
Definition price_patch : ProductUpdate :=
  mkProductUpdate None None (Some (mkDecimal 7500 (-3))) None {[ "price" ]}.


(** The keys a patch can write. *)
Definition patch_keys : list string :=
  ["name"; "quantity"; "price"; "status"; "updated_at"].


(** The keys of the unique index, one per document. *)
Definition names_of (ds : list (gmap string value)) : list (option value) :=
  map (fun d : gmap string value => d !! "name") ds.

(** A document that the output schema accepts. *)
Definition well_formed (d : gmap string value) : Prop :=
  exists out, ProductOut_init d = Ok out.

(** Two decimals of the same numeric value, whatever their exponents. *)
Definition dec_eqb (a b : Decimal) : bool :=
  let '(x, y) := dec_align a b in x =? y.

(** The world a successful [create] of [body] leaves: the record appended
    under the next [_id], the index in place, two collection calls served,
    one UUID drawn and the clock read twice. *)
Definition created_world (body : ProductIn) (w : World) : World :=
  mkWorld (docs w ++ [stored (next_oid w) (new_model body w)]) true
    (next_oid w + 1)%N (tl (tl (events w))) (clock w) (S (S (ticks w)))
    (uuid_source w) (S (uuid_draws w)).

(** No stored document carries the name [n]. *)
Definition name_free (n : string) (ds : list (gmap string value)) : Prop :=
  forall d, In d ds -> d !! "name" <> Some (VStr n).

(** The unique index exists and no two documents share a name. *)
Definition names_unique (w : World) : Prop :=
  unique_name w = true /\ NoDup (names_of (docs w)).

(** Every stored document is one the output schema accepts. *)
Definition all_well_formed (ds : list (gmap string value)) : Prop :=
  forall d, In d ds -> well_formed d.

(** The coefficient of [a] rescaled to the exponent [e]. *)
Definition dec_scaled (a : Decimal) (e : Z) : Z := dec_coeff a * 10 ^ (dec_exp a - e).

(** * Properties *)

(** ** The filter of [query] *)

Lemma stored_price oid m : stored oid m !! "price" = Some (VDec (pm_price m)).
Proof. reflexivity. Qed.

Lemma stored_id oid m : stored oid m !! "id" = Some (VUuid (pm_id m)).
Proof. reflexivity. Qed.

Lemma ProductOut_init_stored oid m : ProductOut_init (stored oid m) = Ok (view m).
Proof. reflexivity. Qed.

Lemma matches_empty d : matches ∅ d = true.
Proof. unfold matches. by rewrite map_to_list_empty. Qed.

Lemma matches_singleton k c d : matches {[ k := c ]} d = condition_holds (d !! k) c.
Proof. unfold matches. rewrite map_to_list_singleton. cbn. apply andb_true_r. Qed.

(** The filter that [query] builds selects a stored product exactly when its
    price lies in the open range of the specification. *)
Lemma matches_filter_query mn mx oid m :
  matches (ProductUsecase.filter_query mn mx) (stored oid m)
  = open_range mn mx (pm_price m).
Proof.
  unfold ProductUsecase.filter_query, open_range.
  destruct mn as [mn|], mx as [mx|]; rewrite ?insert_empty, ?matches_singleton,
    ?matches_empty; try reflexivity; cbn [condition_holds forallb operator_holds];
    rewrite stored_price; cbn; by rewrite ?andb_true_r.
Qed.

Lemma filter_stored_all mn mx ps :
  List.filter (matches (ProductUsecase.filter_query mn mx)) (stored_all ps)
  = stored_all (List.filter (fun p => open_range mn mx (pm_price (snd p))) ps).
Proof.
  induction ps as [|[oid m] ps IH]; [reflexivity|].
  cbn [stored_all map List.filter fst snd]. rewrite matches_filter_query.
  destruct (open_range mn mx (pm_price m)); cbn [map fst snd];
    fold (stored_all ps); rewrite IH; reflexivity.
Qed.

Lemma mapM_init_stored_all ps w :
  mapM (fun item => lift (ProductOut_init item)) (stored_all ps) w
  = (w, Ok (map (fun p => view (snd p)) ps)).
Proof.
  induction ps as [|[oid m] ps IH]; [reflexivity|].
  cbn [stored_all map mapM fst snd]. fold (stored_all ps).
  unfold bind at 1. unfold lift at 1. rewrite ProductOut_init_stored.
  unfold bind at 1. rewrite IH. reflexivity.
Qed.

Lemma undisturbed_arrive n w :
  undisturbed (S n) w ->
  arrive w = set_events (tl (events w)) w /\ undisturbed n (arrive w).
Proof.
  unfold undisturbed, arrive. destruct w as [ds un oid evs ck tk us ud]; cbn.
  destruct evs as [|[| |] evs]; cbn; try done. by destruct n.
Qed.

Lemma collection_call_undisturbed {A} (op : M A) n w :
  undisturbed (S n) w -> collection_call op w = op (arrive w).
Proof.
  unfold undisturbed, collection_call. by destruct (events w) as [|[| |] evs].
Qed.

Lemma collection_call_calm {A} (op : M A) w :
  calm w -> collection_call op w = op (arrive w) /\ docs (arrive w) = docs w.
Proof.
  intros H. split; [by apply (collection_call_undisturbed op 0)|].
  by destruct (undisturbed_arrive 0 w H) as [-> _].
Qed.

Lemma views_of_selected (sel : ProductModel -> bool) (ps : list (N * ProductModel)) :
  map (fun p => view (snd p)) (List.filter (fun p => sel (snd p)) ps)
  = map view (List.filter sel (map snd ps)).
Proof.
  induction ps as [|[oid m] ps IH]; [reflexivity|].
  cbn [List.filter map fst snd]. destruct (sel m); cbn [map snd]; by rewrite IH.
Qed.

(** ** The error taxonomy *)

(** C9: an empty message leaves the class default in place ("Not Found",
    "Error inserting product"); the constructor tests the message for
    truthiness, so only a non-empty string replaces the default. *)
Theorem empty_message_keeps_default :
  Exceptions.message (Exceptions.init Exceptions.NotFoundException (Some ""))
    = "Not Found"
  /\ Exceptions.message (Exceptions.init Exceptions.InsertionException (Some ""))
    = "Error inserting product"
  /\ (forall c, Exceptions.message (Exceptions.init c None) = Exceptions.class_message c)
  /\ (forall c m,
        Exceptions.message (Exceptions.init c (Some m))
        = if bool_decide (m = "") then Exceptions.class_message c else m).
Proof.
  repeat split; intros c m.
  destruct m as [|a m]; reflexivity.
Qed.

(** ** query *)

(** C1: served undisturbed over a collection of stored products, [query]
    returns, in the store's order, the views of exactly the products whose
    price lies in the open range: strictly above the minimum when one is
    given and strictly below the maximum when one is given, every product
    without bounds; when none matches the result is the empty list and not an
    error. *)
Theorem query_returns_open_range (w : World) (ps : list (N * ProductModel))
    (min_price max_price : option Decimal) :
  calm w ->
  docs w = stored_all ps ->
  exists out : list ProductOut,
    ProductUsecase.query min_price max_price w = (arrive w, Ok out)
    /\ out = map view
               (List.filter (fun m => open_range min_price max_price (pm_price m))
                  (map snd ps))
    /\ (forall o, In o out <->
          exists m, In m (map snd ps) /\ o = view m
                    /\ open_range min_price max_price (pm_price m) = true)
    /\ ((forall m, In m (map snd ps) ->
           open_range min_price max_price (pm_price m) = false) -> out = []).
Proof.
  intros Hcalm Hdocs.
  set (sel := fun m => open_range min_price max_price (pm_price m)).
  exists (map view (List.filter sel (map snd ps))).
  assert (Hq : ProductUsecase.query min_price max_price w
               = (arrive w, Ok (map view (List.filter sel (map snd ps))))).
  { unfold ProductUsecase.query, find, bind.
    destruct (collection_call_calm
      (fun w0 => (w0, Ok (List.filter
         (matches (ProductUsecase.filter_query min_price max_price)) (docs w0))))
      w Hcalm) as [-> Hd].
    rewrite Hd, Hdocs, filter_stored_all, mapM_init_stored_all.
    do 2 f_equal. exact (views_of_selected sel ps). }
  split; [exact Hq|]. split; [reflexivity|]. split.
  - intros o. rewrite in_map_iff. split.
    + intros (m & <- & Hin). apply filter_In in Hin as [Hin Hsel]. by exists m.
    + intros (m & Hin & -> & Hsel). exists m. split; [done|].
      apply filter_In. by split.
  - intros Hnone. replace (List.filter sel (map snd ps)) with (@nil ProductModel);
      [reflexivity|].
    symmetry. clear Hq. induction (map snd ps) as [|m l IH]; [reflexivity|].
    cbn [List.filter]. unfold sel at 1. rewrite (Hnone m) by (left; reflexivity).
    apply IH. intros m' Hm'. apply Hnone. by right.
Qed.

(** The tests' products, priced 4500.00, 6500.00, 9000.00, 3000.00 and
    7000.00: between 5000 and 8000 lie the second and the fifth, above 8000
    the third, below 5000 the first and the fourth, and without bounds all
    five are returned. *)
Lemma query_returns_open_range_witness :
  (exists out,
     ProductUsecase.query (Some (dec_of_Z 5000)) (Some (dec_of_Z 8000)) varied_world
       = (varied_world, Ok out)
     /\ names out = ["Laptop Mid"; "Smartphone"])
  /\ (exists out,
     ProductUsecase.query (Some (dec_of_Z 8000)) None varied_world
       = (varied_world, Ok out)
     /\ names out = ["Laptop High"])
  /\ (exists out,
     ProductUsecase.query None (Some (dec_of_Z 5000)) varied_world
       = (varied_world, Ok out)
     /\ names out = ["Laptop Basic"; "Tablet"])
  /\ (exists out,
     ProductUsecase.query None None varied_world = (varied_world, Ok out)
     /\ names out
        = ["Laptop Basic"; "Laptop Mid"; "Laptop High"; "Tablet"; "Smartphone"])
  /\ (exists out,
     ProductUsecase.query (Some (dec_of_Z 9000)) None varied_world
       = (varied_world, Ok out)
     /\ out = []).
Proof.
  repeat split.
  - destruct (query_returns_open_range varied_world varied_prices
      (Some (dec_of_Z 5000)) (Some (dec_of_Z 8000)) I eq_refl) as (out & Hq & -> & _).
    eexists. split; [exact Hq | reflexivity].
  - destruct (query_returns_open_range varied_world varied_prices
      (Some (dec_of_Z 8000)) None I eq_refl) as (out & Hq & -> & _).
    eexists. split; [exact Hq | reflexivity].
  - destruct (query_returns_open_range varied_world varied_prices
      None (Some (dec_of_Z 5000)) I eq_refl) as (out & Hq & -> & _).
    eexists. split; [exact Hq | reflexivity].
  - destruct (query_returns_open_range varied_world varied_prices
      None None I eq_refl) as (out & Hq & -> & _).
    eexists. split; [exact Hq | reflexivity].
  - destruct (query_returns_open_range varied_world varied_prices
      (Some (dec_of_Z 9000)) None I eq_refl) as (out & Hq & _ & _ & Hnone).
    eexists. split; [exact Hq |]. apply Hnone. intros m Hm. cbn in Hm.
    repeat (destruct Hm as [<- | Hm]; [reflexivity|]). destruct Hm.
Defined.

(** ** create *)

Ltac world_simpl :=
  unfold set_docs, set_unique_name, set_next_oid, set_events, set_ticks,
    set_uuid_draws in *;
  cbn [docs unique_name next_oid events clock ticks uuid_source uuid_draws] in *.

Lemma collection_call_fails {A} (op : M A) w e evs :
  events w = Fails e :: evs -> collection_call op w = (set_events evs w, Raise e).
Proof. intros He. unfold collection_call, arrive. by rewrite He. Qed.

Lemma collection_call_quiet {A} (op : M A) w evs :
  events w = Quiet :: evs -> collection_call op w = op (set_events evs w).
Proof. intros He. unfold collection_call, arrive. by rewrite He. Qed.

Lemma collection_call_idle {A} (op : M A) w :
  events w = [] -> collection_call op w = op w.
Proof. intros He. unfold collection_call, arrive. by rewrite He. Qed.

Lemma ProductModel_init_dump body w :
  ProductModel_init (ProductIn_model_dump body) w
  = (set_ticks (S (S (ticks w))) (set_uuid_draws (S (uuid_draws w)) w),
     Ok (new_model body w)).
Proof. reflexivity. Qed.

Lemma ProductOut_init_dump m : ProductOut_init (ProductModel_model_dump m) = Ok (view m).
Proof. reflexivity. Qed.

Lemma append_nonempty (s t : string) : s <> "" -> s +:+ t <> "".
Proof. by destruct s. Qed.

Lemma Insertion_message m :
  m <> "" -> is_insertion_error (Insertion m) m.
Proof.
  intros Hm. exists (Exceptions.init Exceptions.InsertionException (Some m)).
  destruct m; [done|]. by repeat split.
Qed.

Lemma NotFound_message m :
  m <> "" -> is_not_found_error (NotFound m) m.
Proof.
  intros Hm. exists (Exceptions.init Exceptions.NotFoundException (Some m)).
  destruct m; [done|]. by repeat split.
Qed.

Lemma insertion_message_nonempty e : insertion_message e <> "".
Proof. by destruct e. Qed.

(** Whatever the [try] block of [create] raises comes back as one
    [InsertionException]; what it returns is returned as its view. *)
Lemma create_by_try body w :
  ProductUsecase.create body w =
  match ProductUsecase.create_try body w with
  | (w', Ok m) => (w', Ok (view m))
  | (w', Raise e) => (w', Raise (Insertion (insertion_message e)))
  end.
Proof.
  unfold ProductUsecase.create, bind, try_except.
  destruct (ProductUsecase.create_try body w) as [w' [m|e]]; [reflexivity|].
  by destruct e.
Qed.

(** The [try] block returns nothing but the record it built. *)
Lemma create_try_ok body w w' m :
  ProductUsecase.create_try body w = (w', Ok m) -> m = new_model body w.
Proof.
  unfold ProductUsecase.create_try, bind. rewrite ProductModel_init_dump.
  destruct (create_index _) as [w1 [[]|e]]; [|done].
  destruct (insert_one _ _) as [w2 [[]|e]]; [|done].
  by intros [= _ <-].
Qed.

Lemma name_taken_true k ds :
  (exists d, In d ds /\ d !! "name" = k) -> name_taken k ds = true.
Proof.
  intros (d & Hin & Hk). apply existsb_exists. exists d. split; [done|].
  by apply bool_decide_eq_true.
Qed.

Lemma dump_name m : ProductModel_model_dump m !! "name" = Some (VStr (pm_name m)).
Proof. reflexivity. Qed.

Lemma inserted_doc m oid :
  match ProductModel_model_dump m !! "_id" with
  | Some _ => (ProductModel_model_dump m, oid)
  | None => (<["_id" := VObjectId oid]> (ProductModel_model_dump m), (oid + 1)%N)
  end = (stored oid m, (oid + 1)%N).
Proof. reflexivity. Qed.

(** With the name already in the collection and the driver undisturbed, the
    [try] block ends in a duplicate-key error, from the index build or from
    the insert. *)
Lemma create_try_duplicate body w :
  undisturbed 2 w ->
  (exists d, In d (docs w) /\ d !! "name" = Some (VStr (in_name body))) ->
  snd (ProductUsecase.create_try body w) = Raise (DuplicateKeyError duplicate_key_text).
Proof.
  intros Hq Hdup.
  unfold ProductUsecase.create_try, bind. rewrite ProductModel_init_dump.
  set (w0 := set_ticks _ _). set (m := new_model body w).
  assert (Hq0 : undisturbed 2 w0) by exact Hq.
  unfold create_index. rewrite (collection_call_undisturbed _ 1 w0 Hq0).
  destruct (undisturbed_arrive 1 w0 Hq0) as [Ha Hq1]. 
  assert (Hd1 : docs (arrive w0) = docs w) by (by rewrite Ha).
  set (w1 := arrive w0) in *. clearbody w1.
  assert (Hins : forall w2, undisturbed 1 w2 -> docs (arrive w2) = docs w ->
             unique_name (arrive w2) = true ->
             snd (match insert_one (ProductModel_model_dump m) w2 with
                  | (w', Ok _) => ret m w'
                  | (w', Raise e) => (w', Raise e)
                  end) = Raise (DuplicateKeyError duplicate_key_text)).
  { intros w2 Hq2 Hd2 Hu2. unfold insert_one.
    rewrite (collection_call_undisturbed _ 0 w2 Hq2), inserted_doc, Hu2, Hd2.
    rewrite name_taken_true; [reflexivity|].
    destruct Hdup as (d & Hin & Hn). exists d. split; [done|].
    by rewrite Hn. }
  destruct (unique_name w1) eqn:Hu.
  - destruct (undisturbed_arrive 0 w1 Hq1) as [Ha1 _].
    apply Hins; [done | by rewrite Ha1 | by rewrite Ha1].
  - case_bool_decide; [|reflexivity].
    assert (Hq2 : undisturbed 1 (set_unique_name true w1)) by exact Hq1.
    destruct (undisturbed_arrive 0 _ Hq2) as [Ha2 _].
    apply Hins; [done | by rewrite Ha2 | by rewrite Ha2].
Qed.

(** A failure of the driver at the index call or at the insert is what the
    [try] block raises. *)
Lemma create_try_index_fails body w e evs :
  events w = Fails e :: evs ->
  snd (ProductUsecase.create_try body w) = Raise e.
Proof.
  intros He. unfold ProductUsecase.create_try, bind. rewrite ProductModel_init_dump.
  unfold create_index. by erewrite collection_call_fails by exact He.
Qed.

Lemma create_try_insert_fails body w e evs :
  events w = Quiet :: Fails e :: evs ->
  NoDup (map (fun d : gmap string value => d !! "name") (docs w)) ->
  snd (ProductUsecase.create_try body w) = Raise e.
Proof.
  intros He Hnd. unfold ProductUsecase.create_try, bind. rewrite ProductModel_init_dump.
  unfold create_index. erewrite collection_call_quiet by exact He.
  world_simpl. destruct (unique_name w).
  - unfold insert_one. by erewrite collection_call_fails by reflexivity.
  - rewrite bool_decide_eq_true_2 by done.
    unfold insert_one. by erewrite collection_call_fails by reflexivity.
Qed.

(** C4: every failure of [create] is an [InsertionException].  Whatever the
    [try] block raises is mapped by the two [except] clauses: a duplicate-key
    error to "Product with this name already exists.", any other exception
    [e] to "Failed to insert product: " followed by [str(e)].  A name already
    in the collection ends in the first message; a driver failure at the index
    call or at the insert ends in the message of its kind.  Nothing else is
    raised. *)
Theorem create_raises_only_insertion (body : ProductIn) (w : World) :
  (forall e, snd (ProductUsecase.create_try body w) = Raise e ->
     exists e', snd (ProductUsecase.create body w) = Raise e'
       /\ is_insertion_error e' (insertion_message e))
  /\ (forall e', snd (ProductUsecase.create body w) = Raise e' ->
        is_insertion_error e' "Product with this name already exists."
        \/ exists c, is_insertion_error e' ("Failed to insert product: " +:+ c))
  /\ (undisturbed 2 w ->
      (exists d, In d (docs w) /\ d !! "name" = Some (VStr (in_name body))) ->
      exists e', snd (ProductUsecase.create body w) = Raise e'
        /\ is_insertion_error e' "Product with this name already exists.")
  /\ (forall e evs,
        events w = Fails e :: evs
        \/ (events w = Quiet :: Fails e :: evs
            /\ NoDup (map (fun d : gmap string value => d !! "name") (docs w))) ->
        exists e', snd (ProductUsecase.create body w) = Raise e'
          /\ is_insertion_error e' (insertion_message e)).
Proof.
  assert (Hmap : forall e, snd (ProductUsecase.create_try body w) = Raise e ->
     exists e', snd (ProductUsecase.create body w) = Raise e'
       /\ is_insertion_error e' (insertion_message e)).
  { intros e He. rewrite create_by_try.
    destruct (ProductUsecase.create_try body w) as [w' [m|e0]]; [done|].
    cbn in He. injection He as ->. eexists. split; [reflexivity|].
    apply Insertion_message, insertion_message_nonempty. }
  split; [exact Hmap|]. split; [|split].
  - intros e' He'. rewrite create_by_try in He'.
    destruct (ProductUsecase.create_try body w) as [w' [m|e0]]; [done|].
    cbn in He'. injection He' as <-.
    pose proof (Insertion_message _ (insertion_message_nonempty e0)) as Hm.
    destruct e0; cbn [insertion_message] in Hm; eauto.
  - intros Hq Hdup. apply (Hmap (DuplicateKeyError duplicate_key_text)).
    by apply create_try_duplicate.
  - intros e evs [He | [He Hnd]]; apply Hmap.
    + by eapply create_try_index_fails.
    + by eapply create_try_insert_fails.
Qed.

(** The tests of the use case: creating the same product twice, and the
    insert mocked to raise [Exception("Simulated DB Error")] or a
    [DuplicateKeyError]. *)
Lemma create_raises_only_insertion_witness :
  (exists e', snd (ProductUsecase.create iphone iphone_world) = Raise e'
     /\ is_insertion_error e' "Product with this name already exists.")
  /\ (exists e',
        snd (ProductUsecase.create iphone
               (with_events [Quiet; Fails (OtherException "Simulated DB Error")]
                  empty_world)) = Raise e'
        /\ is_insertion_error e' "Failed to insert product: Simulated DB Error")
  /\ (exists e',
        snd (ProductUsecase.create iphone
               (with_events [Quiet; Fails (DuplicateKeyError "Duplicate key error")]
                  empty_world)) = Raise e'
        /\ is_insertion_error e' "Product with this name already exists.").
Proof.
  split; [|split].
  - destruct (create_raises_only_insertion iphone iphone_world) as (_ & _ & H & _).
    apply H; [exact I|]. eexists. split; [left; reflexivity | reflexivity].
  - destruct (create_raises_only_insertion iphone
      (with_events [Quiet; Fails (OtherException "Simulated DB Error")] empty_world))
      as (_ & _ & _ & H).
    apply (H (OtherException "Simulated DB Error") []). right.
    split; [reflexivity | constructor].
  - destruct (create_raises_only_insertion iphone
      (with_events [Quiet; Fails (DuplicateKeyError "Duplicate key error")] empty_world))
      as (_ & _ & _ & H).
    apply (H (DuplicateKeyError "Duplicate key error") []). right.
    split; [reflexivity | constructor].
Defined.

(** C7: the view a successful [create] returns carries the caller's name,
    quantity, price and status unchanged (the price with its coefficient and
    exponent, so no rounding), and an id and two timestamps that come from
    the UUID source and the clock, not from the input. *)
Theorem create_echoes_input (body : ProductIn) (w w' : World) (out : ProductOut) :
  ProductUsecase.create body w = (w', Ok out) ->
  out_name out = in_name body
  /\ out_quantity out = in_quantity body
  /\ out_price out = in_price body
  /\ out_status out = in_status body
  /\ out_id out = uuid_source w (uuid_draws w)
  /\ out_created_at out = clock w (ticks w)
  /\ out_updated_at out = clock w (S (ticks w)).
Proof.
  rewrite create_by_try.
  destruct (ProductUsecase.create_try body w) as [w1 [m|e]] eqn:Htry; [|done].
  intros [= _ <-]. apply create_try_ok in Htry as ->. by repeat split.
Qed.

Lemma create_echoes_input_witness :
  ProductUsecase.create iphone empty_world
    = (iphone_world, Ok (view (new_model iphone empty_world)))
  /\ out_name (view (new_model iphone empty_world)) = "Iphone 14 Pro Max"
  /\ out_quantity (view (new_model iphone empty_world)) = 10
  /\ out_price (view (new_model iphone empty_world)) = mkDecimal 8500 (-3)
  /\ out_status (view (new_model iphone empty_world)) = true.
Proof.
  assert (H : ProductUsecase.create iphone empty_world
              = (iphone_world, Ok (view (new_model iphone empty_world))))
    by reflexivity.
  split; [exact H|].
  destruct (create_echoes_input iphone empty_world iphone_world _ H)
    as (Hn & Hq & Hp & Hs & _).
  rewrite Hn, Hq, Hp, Hs. by repeat split.
Defined.

(** ** Lookup by identifier: get and delete *)

Lemma matches_by_id id d :
  matches (by_id id) d = bool_decide (d !! "id" = Some (VUuid id)).
Proof. apply matches_singleton. Qed.

Lemma split_first_spec p ds :
  match split_first p ds with
  | Some (pre, d, post) =>
      ds = pre ++ d :: post /\ p d = true /\ forall x, In x pre -> p x = false
  | None => forall x, In x ds -> p x = false
  end.
Proof.
  induction ds as [|d ds IH]; cbn; [by intros|].
  destruct (p d) eqn:Hp; [by repeat split|].
  destruct (split_first p ds) as [[[pre x] post]|].
  - destruct IH as (-> & Hx & Hpre). repeat split; [done|].
    intros y [<- | Hy]; [done | by apply Hpre].
  - intros y [<- | Hy]; [done | by apply IH].
Qed.

Lemma split_first_absent id ds :
  absent id ds -> split_first (matches (by_id id)) ds = None.
Proof.
  intros Habs. pose proof (split_first_spec (matches (by_id id)) ds) as H.
  destruct (split_first _ ds) as [[[pre d] post]|]; [|done].
  destruct H as (-> & Hd & _). rewrite matches_by_id in Hd.
  apply bool_decide_eq_true in Hd. exfalso. apply (Habs d); [|done].
  apply in_app_iff. right. by left.
Qed.

Lemma with_id_nil_absent id ds : with_id id ds = [] <-> absent id ds.
Proof.
  unfold with_id, absent. induction ds as [|d ds IH]; cbn.
  - split; [by intros _ d [] | done].
  - rewrite matches_by_id. case_bool_decide as Hd.
    + split; [done|]. intros H. exfalso. apply (H d); [by left | done].
    + rewrite IH. split.
      * intros H x [<- | Hx]; [done | by apply H].
      * intros H x Hx. apply H. by right.
Qed.

Lemma falsy_with_key (d : gmap string value) k v : d !! k = Some v -> falsy (Some d) = false.
Proof.
  intros Hk. cbn. apply bool_decide_eq_false. intros ->. by rewrite lookup_empty in Hk.
Qed.

Lemma not_found_message_nonempty id : not_found_message id <> "".
Proof. done. Qed.

Lemma collection_call_served {A} (op : M A) w :
  served w -> collection_call op w = op (arrive w).
Proof.
  unfold served, collection_call. by destruct (events w) as [|[| |] evs].
Qed.

Lemma arrive_absent id w : absent id (docs w) -> absent id (docs (arrive w)).
Proof.
  unfold arrive. destruct (events w) as [|[| |j] evs]; world_simpl; try done.
  intros Habs d Hd. apply Habs. unfold remove_first in Hd.
  pose proof (split_first_spec (matches (by_id j)) (docs w)) as H.
  destruct (split_first _ (docs w)) as [[[pre x] post]|]; [|done].
  destruct H as (-> & _). apply in_app_iff. apply in_app_iff in Hd as [Hd|Hd];
    [by left | right; by right].
Qed.

(** [get] of an identifier that no stored document carries raises
    [NotFoundException] with the identifier in its message, and writes
    nothing. *)
Lemma get_absent id w :
  served w -> absent id (docs w) ->
  ProductUsecase.get id w = (arrive w, Raise (NotFound (not_found_message id))).
Proof.
  intros Hs Habs. unfold ProductUsecase.get, bind, find_one.
  rewrite (collection_call_served _ w Hs).
  by rewrite (split_first_absent id _ (arrive_absent id w Habs)).
Qed.

Lemma delete_absent id w :
  served w -> absent id (docs w) ->
  ProductUsecase.delete id w = (arrive w, Raise (NotFound (not_found_message id))).
Proof.
  intros Hs Habs. unfold ProductUsecase.delete, bind, find_one.
  rewrite (collection_call_served _ w Hs).
  by rewrite (split_first_absent id _ (arrive_absent id w Habs)).
Qed.

Lemma split_first_present id ds :
  with_id id ds <> [] ->
  exists pre d post,
    split_first (matches (by_id id)) ds = Some (pre, d, post)
    /\ d !! "id" = Some (VUuid id).
Proof.
  intros Hne. pose proof (split_first_spec (matches (by_id id)) ds) as H.
  destruct (split_first _ ds) as [[[pre d] post]|].
  - destruct H as (_ & Hd & _). rewrite matches_by_id in Hd.
    apply bool_decide_eq_true in Hd. by exists pre, d, post.
  - exfalso. apply Hne. apply with_id_nil_absent. intros d Hd Hid.
    specialize (H d Hd). rewrite matches_by_id in H.
    by apply bool_decide_eq_false in H.
Qed.

Lemma with_id_present id ds :
  (exists d, In d ds /\ d !! "id" = Some (VUuid id)) -> with_id id ds <> [].
Proof.
  intros (d & Hin & Hid) Hnil. apply with_id_nil_absent in Hnil. by apply (Hnil d).
Qed.

Lemma with_id_app id l1 l2 : with_id id (l1 ++ l2) = with_id id l1 ++ with_id id l2.
Proof. apply List.filter_app. Qed.

Lemma with_id_cons id d l :
  with_id id (d :: l)
  = if matches (by_id id) d then d :: with_id id l else with_id id l.
Proof. reflexivity. Qed.

Lemma with_id_remove_first id p ds :
  (length (with_id id (remove_first p ds)) <= length (with_id id ds))%nat.
Proof.
  unfold remove_first. pose proof (split_first_spec p ds) as H.
  destruct (split_first p ds) as [[[pre d] post]|]; [|done].
  destruct H as (-> & _). rewrite !with_id_app, with_id_cons, !length_app.
  destruct (matches (by_id id) d); cbn [length]; lia.
Qed.

Lemma with_id_arrive id w :
  (length (with_id id (docs (arrive w))) <= length (with_id id (docs w)))%nat.
Proof.
  unfold arrive. destruct (events w) as [|[| |j] evs]; world_simpl; try done.
  apply with_id_remove_first.
Qed.

(** ** delete *)

(** C6: when a stored product matches at the existence check and the driver
    fails neither call, [delete] removes the first document that still
    carries the identifier when the delete is served and returns [true]
    exactly then; it returns [false] when a racing delete took that document
    in between.  With the identifier unique in the collection no document
    carries it afterwards, and a following [get] raises [NotFoundException]. *)
Theorem delete_removes_and_reports (id : UUID) (w : World) :
  undisturbed 1 w ->
  served (arrive w) ->
  (exists d, In d (docs w) /\ d !! "id" = Some (VUuid id)) ->
  exists w' b,
    ProductUsecase.delete id w = (w', Ok b)
    /\ docs w' = remove_first (matches (by_id id)) (docs (arrive (arrive w)))
    /\ (b = true <->
        exists pre d post,
          docs (arrive (arrive w)) = pre ++ d :: post
          /\ d !! "id" = Some (VUuid id)
          /\ docs w' = pre ++ post)
    /\ (b = false <->
        absent id (docs (arrive (arrive w))) /\ docs w' = docs (arrive (arrive w)))
    /\ (length (with_id id (docs w)) = 1%nat ->
        absent id (docs w')
        /\ (served w' ->
            exists e, snd (ProductUsecase.get id w') = Raise e
              /\ is_not_found_error e (not_found_message id))).
Proof.
  intros Hq Hs Hne. apply with_id_present in Hne.
  destruct (undisturbed_arrive 0 w Hq) as [Ha _].
  assert (Hd1 : docs (arrive w) = docs w) by (by rewrite Ha).
  unfold ProductUsecase.delete, bind, find_one.
  rewrite (collection_call_undisturbed _ 0 w Hq), Hd1.
  destruct (split_first_present id (docs w) Hne) as (pre0 & d0 & post0 & -> & Hid0).
  rewrite (falsy_with_key d0 "id" _ Hid0).
  unfold delete_one. rewrite (collection_call_served _ _ Hs).
  set (w2 := arrive (arrive w)).
  assert (Hle : (length (with_id id (docs w2)) <= length (with_id id (docs w)))%nat).
  { unfold w2. etrans; [apply with_id_arrive|]. by rewrite Hd1. }
  assert (Hget : forall w', absent id (docs w') -> served w' ->
            exists e, snd (ProductUsecase.get id w') = Raise e
              /\ is_not_found_error e (not_found_message id)).
  { intros w' Habs Hs'. rewrite (get_absent id w' Hs' Habs). eexists.
    split; [reflexivity|]. apply NotFound_message, not_found_message_nonempty. }
  unfold remove_first.
  pose proof (split_first_spec (matches (by_id id)) (docs w2)) as Hsp.
  destruct (split_first _ (docs w2)) as [[[pre d] post]|] eqn:Hsf.
  - destruct Hsp as (Hds & Hd & Hpre). rewrite matches_by_id in Hd.
    apply bool_decide_eq_true in Hd.
    exists (set_docs (pre ++ post) w2), true. cbn [docs set_docs].
    split; [reflexivity|]. split; [reflexivity|]. split; [|split].
    + split; [|done]. intros _. by exists pre, d, post.
    + split; [done|]. intros [Habs _]. exfalso. apply (Habs d); [|done].
      rewrite Hds. apply in_app_iff. right. by left.
    + intros Hone.
      assert (Habs : absent id (pre ++ post)).
      { apply with_id_nil_absent. apply length_zero_iff_nil.
        rewrite Hds, with_id_app, with_id_cons, matches_by_id, bool_decide_eq_true_2,
          length_app in Hle by done.
        cbn [length] in Hle. rewrite with_id_app, length_app. lia. }
      split; [exact Habs|]. apply Hget. exact Habs.
  - exists w2, false. split; [reflexivity|]. split; [reflexivity|].
    assert (Habs : absent id (docs w2)).
    { intros x Hx Hid. specialize (Hsp x Hx). rewrite matches_by_id in Hsp.
      by apply bool_decide_eq_false in Hsp. }
    split; [|split].
    + split; [done|]. intros (pre & d & post & Hds & Hd & _). exfalso.
      apply (Habs d); [|done]. rewrite Hds. apply in_app_iff. right. by left.
    + by split.
    + intros _. split; [exact Habs|]. by apply Hget.
Qed.

(** [str] of the identifier used by the "not found" tests. *)
Example str_uuid_unknown_id :
  str_uuid unknown_id = "1e4f214e-85f7-461a-89d0-a751a32e3bb9".
Proof. reflexivity. Qed.

(** Deleting the one stored product returns [true], empties the collection and
    makes a following [get] raise; when another client deletes it between the
    check and the delete, the result is [false]. *)
Lemma delete_removes_and_reports_witness :
  (exists w',
     ProductUsecase.delete 1%N iphone_world = (w', Ok true)
     /\ docs w' = []
     /\ exists e, snd (ProductUsecase.get 1%N w') = Raise e
          /\ is_not_found_error e
               "Product not found with filter: 00000000-0000-0000-0000-000000000001")
  /\ (exists w',
     ProductUsecase.delete 1%N (with_events [Quiet; RacingDelete 1%N] iphone_world)
       = (w', Ok false)
     /\ docs w' = []).
Proof.
  split.
  - destruct (delete_removes_and_reports 1%N iphone_world I I)
      as (w' & b & Hdel & Hdocs & _ & _ & Hone);
      [eexists; split; [left; reflexivity | reflexivity]|].
    assert (Hb : snd (ProductUsecase.delete 1%N iphone_world) = Ok true) by reflexivity.
    rewrite Hdel in Hb. injection Hb as ->.
    exists w'. split; [exact Hdel|]. split; [exact Hdocs|].
    destruct (Hone eq_refl) as [_ Hget]. apply Hget.
    replace w' with (fst (ProductUsecase.delete 1%N iphone_world)) by (by rewrite Hdel).
    exact I.
  - destruct (delete_removes_and_reports 1%N
                (with_events [Quiet; RacingDelete 1%N] iphone_world) I I)
      as (w' & b & Hdel & Hdocs & _ & _ & _);
      [eexists; split; [left; reflexivity | reflexivity]|].
    assert (Hb : snd (ProductUsecase.delete 1%N
                        (with_events [Quiet; RacingDelete 1%N] iphone_world))
                 = Ok false) by reflexivity.
    rewrite Hdel in Hb. injection Hb as ->.
    exists w'. split; [exact Hdel | exact Hdocs].
Defined.

(** ** update *)

(** Under [import datetime] the second statement of [update] raises
    [AttributeError]: no collection call is made and the world is left as it
    was. *)
Lemma update_as_imported id body w :
  ProductUsecase.update id body w = (w, Raise (AttributeError attribute_error_text)).
Proof. reflexivity. Qed.

Lemma lookup_put_ne {A} k k' (v : option A) inj (d : gmap string value) :
  k <> k' -> put k v inj d !! k' = d !! k'.
Proof. intros Hne. destruct v; cbn; [by rewrite lookup_insert_ne | done]. Qed.

Lemma lookup_put_eq {A} k (v : option A) inj (d : gmap string value) :
  d !! k = None -> put k v inj d !! k = inj <$> v.
Proof. intros Hd. destruct v; cbn; [by rewrite lookup_insert_eq | done]. Qed.

(** What the dictionary handed to [$set] holds: the fields of the patch that
    are not [None], the refreshed [updated_at], and no other key. *)
Lemma update_data_lookup body now :
  ProductUsecase.update_data body now !! "name" = VStr <$> up_name body
  /\ ProductUsecase.update_data body now !! "quantity" = VInt <$> up_quantity body
  /\ ProductUsecase.update_data body now !! "price" = VDec <$> up_price body
  /\ ProductUsecase.update_data body now !! "status" = VBool <$> up_status body
  /\ ProductUsecase.update_data body now !! "updated_at" = Some (VDate now)
  /\ (forall k, ~ In k patch_keys -> ProductUsecase.update_data body now !! k = None).
Proof.
  unfold ProductUsecase.update_data, ProductUpdate_model_dump_exclude_none.
  destruct body as [n q p s fs]; cbn [up_name up_quantity up_price up_status].
  repeat split.
  - rewrite lookup_insert_ne by done. by rewrite lookup_put_eq by
      (by rewrite !lookup_put_ne by done).
  - rewrite lookup_insert_ne, lookup_put_ne by done. by rewrite lookup_put_eq by
      (by rewrite !lookup_put_ne by done).
  - rewrite lookup_insert_ne, !lookup_put_ne by done. by rewrite lookup_put_eq by
      (by rewrite !lookup_put_ne by done).
  - rewrite lookup_insert_ne, !lookup_put_ne by done. by rewrite lookup_put_eq.
  - by rewrite lookup_insert_eq.
  - intros k Hk. cbn in Hk.
    rewrite lookup_insert_ne, !lookup_put_ne by (intros <-; tauto). done.
Qed.

Lemma update_data_no_id body now :
  ProductUsecase.update_data body now !! "id" = None /\ ProductUsecase.update_data body now !! "created_at" = None.
Proof.
  destruct (update_data_lookup body now) as (_ & _ & _ & _ & _ & H).
  split; apply H; cbn; intros H'; decompose [or] H'; done.
Qed.

Lemma ProductOut_init_ok kw out :
  ProductOut_init kw = Ok out ->
  kw !! "id" = Some (VUuid (out_id out))
  /\ kw !! "name" = Some (VStr (out_name out))
  /\ kw !! "quantity" = Some (VInt (out_quantity out))
  /\ kw !! "price" = Some (VDec (out_price out))
  /\ kw !! "status" = Some (VBool (out_status out))
  /\ kw !! "created_at" = Some (VDate (out_created_at out))
  /\ kw !! "updated_at" = Some (VDate (out_updated_at out)).
Proof.
  unfold ProductOut_init.
  destruct (kw !! "id") as [[]|]; try discriminate.
  destruct (kw !! "name") as [[]|]; try discriminate.
  destruct (kw !! "quantity") as [[]|]; try discriminate.
  destruct (kw !! "price") as [[]|]; try discriminate.
  destruct (kw !! "status") as [[]|]; try discriminate.
  destruct (kw !! "created_at") as [[]|]; try discriminate.
  destruct (kw !! "updated_at") as [[]|]; try discriminate.
  by intros [= <-].
Qed.

(** C2: as the file stands, [update] never merges anything.  The name
    [datetime] is bound to the module, [datetime.utcnow] is no attribute of
    it, and every call raises [AttributeError] on the second statement, with
    the collection untouched; in particular a product that matches is neither
    changed nor returned. *)
Theorem update_raises_attribute_error (id : UUID) (body : ProductUpdate) (w : World) :
  ProductUsecase.update id body w = (w, Raise (AttributeError attribute_error_text))
  /\ docs (fst (ProductUsecase.update id body w)) = docs w
  /\ ProductUsecase.update 1%N price_patch iphone_world
     = (iphone_world, Raise (AttributeError attribute_error_text)).
Proof. by repeat split. Qed.

(** C3: a failure of the driver inside [update] is not wrapped.  [update] has
    no [try]: with the name [datetime] bound to the class the driver's own
    exception leaves the method, and bound to the module, as imported, the
    [AttributeError] does; neither is an [InsertionException]. *)
Theorem update_does_not_wrap_failures (datetime : datetime_binding) (id : UUID)
    (body : ProductUpdate) (w : World) (e : exn) (evs : list event) :
  snd (ProductUsecase.update_with datetime id body (with_events (Fails e :: evs) w))
  = Raise (match datetime with
           | DatetimeModule => AttributeError attribute_error_text
           | DatetimeClass => e
           end)
  /\ snd (ProductUsecase.update id body
            (with_events [Fails (OtherException "Simulated DB Update Error")] w))
     = Raise (AttributeError attribute_error_text)
  /\ (forall t m, ~ is_insertion_error (AttributeError t) m)
  /\ (forall t m, ~ is_insertion_error (OtherException t) m).
Proof.
  split; [by destruct datetime|]. split; [reflexivity|].
  split; intros t m (inst & Heq & _); discriminate.
Qed.

(** C5, the part that fails: for an identifier that matches nothing [update]
    as imported raises [AttributeError], which is no [NotFoundException]; the
    collection is not written. *)
Theorem update_unknown_id_is_not_reported (body : ProductUpdate) (w : World) :
  snd (ProductUsecase.update unknown_id body w) = Raise (AttributeError attribute_error_text)
  /\ (forall m, ~ is_not_found_error (AttributeError attribute_error_text) m)
  /\ fst (ProductUsecase.update unknown_id body w) = w.
Proof.
  split; [reflexivity|]. split; [|reflexivity].
  intros m (inst & Heq & _). discriminate.
Qed.



(** ** Identifiers that match nothing *)

(** X1: for an identifier that no stored document carries, [get] and [delete]
    raise [NotFoundException] with the message "Product not found with
    filter: " followed by the identifier, and leave the collection as the
    call found it. *)
Theorem get_and_delete_report_unknown_id (id : UUID) (w : World) :
  served w ->
  absent id (docs w) ->
  ProductUsecase.get id w = (arrive w, Raise (NotFound (not_found_message id)))
  /\ ProductUsecase.delete id w = (arrive w, Raise (NotFound (not_found_message id)))
  /\ is_not_found_error (NotFound (not_found_message id))
       ("Product not found with filter: " +:+ str_uuid id).
Proof.
  intros Hs Habs. split; [by apply get_absent|]. split; [by apply delete_absent|].
  apply NotFound_message, not_found_message_nonempty.
Qed.

Lemma get_and_delete_report_unknown_id_witness :
  ProductUsecase.get unknown_id iphone_world
    = (iphone_world, Raise (NotFound (not_found_message unknown_id)))
  /\ ProductUsecase.delete unknown_id iphone_world
    = (iphone_world, Raise (NotFound (not_found_message unknown_id)))
  /\ is_not_found_error (NotFound (not_found_message unknown_id))
       "Product not found with filter: 1e4f214e-85f7-461a-89d0-a751a32e3bb9".
Proof.
  apply (get_and_delete_report_unknown_id unknown_id iphone_world I).
  intros d [<- | []]. discriminate.
Defined.

(** ** Reads *)

Lemma mapM_lift_world {A B} (f : A -> result B) (l : list A) (w : World) :
  fst (mapM (fun a => lift (f a)) l w) = w.
Proof.
  induction l as [|a l IH]; [reflexivity|].
  cbn [mapM]. unfold bind at 1, lift at 1. destruct (f a); [|reflexivity].
  unfold bind at 1. destruct (mapM _ l w) as [w' [bs|e]]; exact IH.
Qed.

Lemma arrive_events_length w :
  length (events (arrive w)) = pred (length (events w)).
Proof.
  unfold arrive. destruct (events w) as [|[| |] evs] eqn:He; world_simpl;
    by rewrite ?He.
Qed.

(** X3: [get] and [query] never write.  Whatever they return or raise, the
    world they leave is the one their single collection call found: one
    event of the environment is consumed and the collection is as that event
    left it. *)
Theorem get_and_query_never_write (id : UUID) (min_price max_price : option Decimal)
    (w : World) :
  fst (ProductUsecase.get id w) = arrive w
  /\ fst (ProductUsecase.query min_price max_price w) = arrive w
  /\ length (events (fst (ProductUsecase.get id w))) = pred (length (events w))
  /\ length (events (fst (ProductUsecase.query min_price max_price w)))
     = pred (length (events w)).
Proof.
  assert (Hg : fst (ProductUsecase.get id w) = arrive w).
  { unfold ProductUsecase.get, bind, find_one, collection_call.
    destruct (events w) as [|[|e|j] evs]; try reflexivity.
    all: destruct (split_first _ _) as [[[pre d] post]|]; [|reflexivity].
    all: by destruct (falsy (Some d)). }
  assert (Hq : fst (ProductUsecase.query min_price max_price w) = arrive w).
  { unfold ProductUsecase.query, bind, find, collection_call.
    destruct (events w) as [|[|e|j] evs]; try reflexivity.
    all: apply mapM_lift_world. }
  split; [exact Hg|]. split; [exact Hq|].
  rewrite Hg, Hq. split; apply arrive_events_length.
Qed.

(** ** create: success, round trip and frame *)

Lemma collection_call_tl {A} (op : M A) n w :
  undisturbed (S n) w -> collection_call op w = op (set_events (tl (events w)) w).
Proof.
  intros H. rewrite (collection_call_undisturbed op n w H).
  by destruct (undisturbed_arrive n w H) as [-> _].
Qed.

Lemma undisturbed_tl n w :
  undisturbed (S n) w -> quiet_prefix n (tl (events w)).
Proof.
  unfold undisturbed. destruct (events w) as [|[| |] evs]; cbn; try done.
  by destruct n.
Qed.

Lemma name_taken_false n ds :
  name_free n ds -> name_taken (Some (VStr n)) ds = false.
Proof.
  intros Hfree. unfold name_taken. apply not_true_is_false. intros H.
  apply existsb_exists in H as (d & Hin & Hd). apply bool_decide_eq_true in Hd.
  by apply (Hfree d).
Qed.

(** With both collection calls undisturbed, the index present or buildable
    and the name free, [create] returns the view of the record it built and
    leaves [created_world]. *)
Lemma create_succeeds body w :
  undisturbed 2 w ->
  unique_name w = true \/ NoDup (names_of (docs w)) ->
  name_free (in_name body) (docs w) ->
  ProductUsecase.create body w = (created_world body w, Ok (view (new_model body w))).
Proof.
  intros Hq Hidx Hfree. rewrite create_by_try.
  unfold ProductUsecase.create_try, bind. rewrite ProductModel_init_dump.
  set (m := new_model body w).
  set (w0 := set_ticks _ _).
  assert (Hq0 : undisturbed 2 w0) by exact Hq.
  unfold create_index. rewrite (collection_call_tl _ 1 w0 Hq0).
  pose proof (undisturbed_tl 1 w Hq) as Hq1.
  assert (Hins : forall w1, events w1 = tl (events w) -> docs w1 = docs w ->
            unique_name w1 = true ->
            insert_one (ProductModel_model_dump m) w1
            = (set_next_oid (next_oid w1 + 1)
                 (set_docs (docs w ++ [stored (next_oid w1) m])
                    (set_events (tl (tl (events w))) w1)), Ok tt)).
  { intros w1 He Hd Hu. unfold insert_one.
    assert (Hq1' : undisturbed 1 w1) by (unfold undisturbed; by rewrite He).
    rewrite (collection_call_tl _ 0 w1 Hq1'), inserted_doc. world_simpl.
    rewrite Hu, Hd, He. cbn [andb].
    change (stored (next_oid w1) m !! "name") with (Some (VStr (in_name body))).
    by rewrite (name_taken_false _ _ Hfree). }
  clear Hq0. subst w0. destruct w as [ds un oid evs ck tk us ud]. world_simpl.
  destruct un.
  - rewrite Hins by reflexivity. reflexivity.
  - destruct Hidx as [Hidx | Hnd]; [done|].
    rewrite bool_decide_eq_true_2 by exact Hnd.
    rewrite Hins by reflexivity. reflexivity.
Qed.

Lemma arrive_ext w1 w2 :
  docs w1 = docs w2 -> events w1 = events w2 ->
  docs (arrive w1) = docs (arrive w2) /\ events (arrive w1) = events (arrive w2).
Proof.
  intros Hd He. unfold arrive. rewrite He.
  destruct (events w2) as [|[| |] evs] eqn:He2; world_simpl; rewrite ?Hd, ?He2;
    split; congruence.
Qed.

Lemma arrive_keeps w :
  unique_name (arrive w) = unique_name w /\ next_oid (arrive w) = next_oid w
  /\ clock (arrive w) = clock w /\ ticks (arrive w) = ticks w
  /\ uuid_source (arrive w) = uuid_source w /\ uuid_draws (arrive w) = uuid_draws w.
Proof. unfold arrive. by destruct (events w) as [|[| |] evs]. Qed.

Lemma collection_call_cases {A} (op : M A) w :
  (exists e, collection_call op w = (arrive w, Raise e))
  \/ collection_call op w = op (arrive w).
Proof.
  unfold collection_call. destruct (events w) as [|[|e|] evs]; eauto.
Qed.

Lemma split_first_app p l d r :
  (forall x, In x l -> p x = false) -> p d = true ->
  split_first p (l ++ d :: r) = Some (l, d, r).
Proof.
  intros Hl Hd. induction l as [|x l IH]; cbn; [by rewrite Hd|].
  rewrite (Hl x) by (by left). rewrite IH; [done|]. intros y Hy. apply Hl. by right.
Qed.

(** What [create] leaves in the collection, for every outcome: the documents
    its last collection call found, and after them the new record exactly
    when it succeeded. *)
Lemma create_docs body w :
  match snd (ProductUsecase.create body w) with
  | Ok out =>
      docs (fst (ProductUsecase.create body w))
      = docs (arrive (arrive w)) ++ [stored (next_oid w) (new_model body w)]
      /\ out = view (new_model body w)
      /\ unique_name (fst (ProductUsecase.create body w)) = true
      /\ name_taken (Some (VStr (in_name body))) (docs (arrive (arrive w))) = false
  | Raise _ =>
      (docs (fst (ProductUsecase.create body w)) = docs (arrive w)
       \/ docs (fst (ProductUsecase.create body w)) = docs (arrive (arrive w)))
      /\ (unique_name w = true ->
          unique_name (fst (ProductUsecase.create body w)) = true)
  end.
Proof.
  rewrite create_by_try.
  unfold ProductUsecase.create_try, bind. rewrite ProductModel_init_dump.
  set (m := new_model body w). set (w0 := set_ticks _ _).
  set (ins := fun w1 => let (w', r) := insert_one (ProductModel_model_dump m) w1 in
                        match r with
                        | Ok _ => ret m w'
                        | Raise e => (w', Raise e)
                        end).
  destruct (arrive_ext w0 w eq_refl eq_refl) as [Hd0 He0].
  destruct (arrive_keeps w0) as (Hu0 & Hoid0 & _).
  change (next_oid w0) with (next_oid w) in Hoid0.
  change (unique_name w0) with (unique_name w) in Hu0.
  assert (Hins : forall w1, docs w1 = docs (arrive w) -> events w1 = events (arrive w) ->
            next_oid w1 = next_oid w -> unique_name w1 = true ->
            match snd (ins w1) with
            | Ok m' =>
                docs (fst (ins w1))
                = docs (arrive (arrive w)) ++ [stored (next_oid w) m]
                /\ m' = m
                /\ unique_name (fst (ins w1)) = true
                /\ name_taken (Some (VStr (in_name body))) (docs (arrive (arrive w)))
                   = false
            | Raise _ =>
                docs (fst (ins w1)) = docs (arrive (arrive w))
                /\ unique_name (fst (ins w1)) = true
            end).
  { intros w1 Hd He Ho Hu. destruct (arrive_ext w1 (arrive w) Hd He) as [Hd1 _].
    destruct (arrive_keeps w1) as (Hu1 & Ho1 & _). rewrite Hu in Hu1.
    unfold ins, insert_one.
    destruct (collection_call_cases
      (fun w2 => let '(doc', oid') :=
           match ProductModel_model_dump m !! "_id" with
           | Some _ => (ProductModel_model_dump m, next_oid w2)
           | None => (<["_id" := VObjectId (next_oid w2)]> (ProductModel_model_dump m),
                      (next_oid w2 + 1)%N)
           end in
         if unique_name w2 && name_taken (doc' !! "name") (docs w2)
         then (w2, Raise (DuplicateKeyError duplicate_key_text))
         else (set_next_oid oid' (set_docs (docs w2 ++ [doc']) w2), Ok tt)) w1)
      as [[e ->] | ->]; [by split|].
    rewrite inserted_doc, Hu1. cbn [andb].
    change (stored (next_oid (arrive w1)) m !! "name")
      with (Some (VStr (in_name body))).
    destruct (name_taken _ (docs (arrive w1))) eqn:Hdup; [by split|].
    cbn. by rewrite <- Hd1, Hdup, Ho1, Ho, Hu1. }
  unfold create_index.
  destruct (collection_call_cases
    (fun w1 => if unique_name w1 then (w1, Ok tt)
       else if bool_decide (NoDup (map (fun d : gmap string value => d !! "name")
                                      (docs w1)))
       then (set_unique_name true w1, Ok tt)
       else (w1, Raise (DuplicateKeyError duplicate_key_text))) w0)
    as [[e ->] | ->]; [cbn; split; [by left | by rewrite Hu0]|].
  destruct (unique_name (arrive w0)) eqn:Hu.
  - specialize (Hins (arrive w0) Hd0 He0 Hoid0 Hu). fold (ins (arrive w0)).
    destruct (ins (arrive w0)) as [w2 [m'|e]]; cbn in *.
    + by destruct Hins as (-> & -> & -> & ->).
    + destruct Hins as [-> ->]. split; [by right | done].
  - case_bool_decide; [|cbn; split; [by left | congruence]].
    specialize (Hins (set_unique_name true (arrive w0)) Hd0 He0 Hoid0 eq_refl).
    fold (ins (set_unique_name true (arrive w0))).
    destruct (ins (set_unique_name true (arrive w0))) as [w2 [m'|e]]; cbn in *.
    + by destruct Hins as (-> & -> & -> & ->).
    + destruct Hins as [-> ->]. split; [by right | done].
Qed.

Lemma quiet_prefix_S n evs : quiet_prefix (S n) evs -> quiet_prefix n evs.
Proof.
  revert evs. induction n as [|n IH]; intros evs; [by destruct evs|].
  destruct evs as [|[| |] evs]; cbn; try done. apply IH.
Qed.

Lemma quiet_prefix_tl n evs : quiet_prefix (S n) evs -> quiet_prefix n (tl evs).
Proof. destruct evs as [|[| |] evs]; cbn; try done. by destruct n. Qed.

Lemma undisturbed_docs_arrive n w : undisturbed (S n) w -> docs (arrive w) = docs w.
Proof. intros H. by destruct (undisturbed_arrive n w H) as [-> _]. Qed.

(** X4: with its two collection calls undisturbed, the index present or
    buildable and the name free, [create] succeeds: it returns the view of
    the record it built, appends that record, under the driver's next [_id],
    after the documents already there, and leaves the unique index in
    place. *)
Theorem create_appends_one_product (body : ProductIn) (w : World) :
  undisturbed 2 w ->
  unique_name w = true \/ NoDup (names_of (docs w)) ->
  name_free (in_name body) (docs w) ->
  exists w',
    ProductUsecase.create body w = (w', Ok (view (new_model body w)))
    /\ docs w' = docs w ++ [stored (next_oid w) (new_model body w)]
    /\ ProductOut_init (stored (next_oid w) (new_model body w))
       = Ok (view (new_model body w))
    /\ unique_name w' = true
    /\ events w' = tl (tl (events w)).
Proof.
  intros Hq Hidx Hfree. exists (created_world body w).
  split; [by apply create_succeeds|]. by repeat split.
Qed.

Lemma create_appends_one_product_witness :
  exists w',
    ProductUsecase.create (mkProductIn "Tablet" 20 (mkDecimal 300000 (-2)) false)
      iphone_world
    = (w', Ok (view (new_model (mkProductIn "Tablet" 20 (mkDecimal 300000 (-2)) false)
                       iphone_world)))
    /\ names_of (docs w')
       = [Some (VStr "Iphone 14 Pro Max"); Some (VStr "Tablet")].
Proof.
  destruct (create_appends_one_product
              (mkProductIn "Tablet" 20 (mkDecimal 300000 (-2)) false) iphone_world I
              (or_introl eq_refl))
    as (w' & Hc & Hd & _).
  { intros d [<- | []]. discriminate. }
  exists w'. split; [exact Hc|]. by rewrite Hd.
Defined.

(** X5: create then get.  When in addition the drawn identifier is carried by
    no stored document and the next collection call is undisturbed too, [get]
    of the identifier that [create] returned finds the product just created:
    the view it returns has that identifier and the name, quantity, price and
    status of the input, and nothing is written.  The timestamps are left
    out of the comparison, as in the tests of [get]: the store keeps dates at
    its own precision. *)
Theorem get_after_create_finds_product (body : ProductIn) (w : World) :
  undisturbed 3 w ->
  unique_name w = true \/ NoDup (names_of (docs w)) ->
  name_free (in_name body) (docs w) ->
  absent (uuid_source w (uuid_draws w)) (docs w) ->
  exists w' out out',
    ProductUsecase.create body w = (w', Ok out)
    /\ snd (ProductUsecase.get (out_id out) w') = Ok out'
    /\ out_id out' = out_id out
    /\ out_name out' = in_name body
    /\ out_quantity out' = in_quantity body
    /\ out_price out' = in_price body
    /\ out_status out' = in_status body
    /\ docs (fst (ProductUsecase.get (out_id out) w')) = docs w'.
Proof.
  intros Hq Hidx Hfree Hfresh.
  exists (created_world body w), (view (new_model body w)), (view (new_model body w)).
  split; [apply create_succeeds; [by apply quiet_prefix_S | done | done]|].
  assert (Hq' : undisturbed 1 (created_world body w)).
  { unfold undisturbed, created_world; cbn [events].
    by apply quiet_prefix_tl, quiet_prefix_tl. }
  assert (Hg : ProductUsecase.get (out_id (view (new_model body w)))
                 (created_world body w)
               = (set_events (tl (events (created_world body w))) (created_world body w),
                  Ok (view (new_model body w)))).
  { unfold ProductUsecase.get, bind, find_one.
    rewrite (collection_call_tl _ 0 _ Hq'). cbn [docs set_events created_world].
    rewrite (split_first_app _ (docs w) (stored (next_oid w) (new_model body w)) []).
    - rewrite (falsy_with_key _ "id" _ (stored_id _ _)). unfold lift.
      reflexivity.
    - intros x Hx. rewrite matches_by_id. apply bool_decide_eq_false.
      by apply Hfresh.
    - rewrite matches_by_id. by apply bool_decide_eq_true. }
  rewrite Hg. by repeat split.
Qed.

Lemma get_after_create_finds_product_witness :
  exists w' out out',
    ProductUsecase.create iphone empty_world = (w', Ok out)
    /\ snd (ProductUsecase.get (out_id out) w') = Ok out'
    /\ out_id out' = out_id out
    /\ out_name out' = "Iphone 14 Pro Max"
    /\ out_quantity out' = 10
    /\ out_price out' = mkDecimal 8500 (-3)
    /\ out_status out' = true.
Proof.
  destruct (get_after_create_finds_product iphone empty_world I
              (or_intror (NoDup_nil_2 : NoDup (names_of (docs empty_world)))))
    as (w' & out & out' & Hc & Hg & Hi & Hn & Hq & Hp & Hs & _).
  { by intros d []. }
  { by intros d []. }
  exists w', out, out'. by repeat split.
Defined.

(** X6: [create] adds at most one document and touches no other.  When it
    raises, whatever the cause, the collection holds exactly what one of its
    two collection calls found, so nothing was inserted; when it returns, the
    collection is what the insert found followed by the new record.  With
    the calls undisturbed a failed [create] leaves the collection as it was. *)
Theorem create_adds_at_most_one (body : ProductIn) (w : World) :
  (forall e, snd (ProductUsecase.create body w) = Raise e ->
     docs (fst (ProductUsecase.create body w)) = docs (arrive w)
     \/ docs (fst (ProductUsecase.create body w)) = docs (arrive (arrive w)))
  /\ (forall out, snd (ProductUsecase.create body w) = Ok out ->
        docs (fst (ProductUsecase.create body w))
        = docs (arrive (arrive w)) ++ [stored (next_oid w) (new_model body w)]
        /\ unique_name (fst (ProductUsecase.create body w)) = true)
  /\ (undisturbed 2 w ->
      forall e, snd (ProductUsecase.create body w) = Raise e ->
        docs (fst (ProductUsecase.create body w)) = docs w).
Proof.
  pose proof (create_docs body w) as H.
  split; [|split].
  - intros e He. rewrite He in H. by destruct H.
  - intros out Ho. rewrite Ho in H. by destruct H as (? & _ & ? & _).
  - intros Hq e He. rewrite He in H. destruct H as [H _].
    pose proof (undisturbed_docs_arrive 1 w Hq) as H1.
    destruct (undisturbed_arrive 1 w Hq) as [_ Hq1].
    pose proof (undisturbed_docs_arrive 0 _ Hq1) as H2.
    destruct H as [-> | ->]; congruence.
Qed.

Lemma create_adds_at_most_one_witness :
  docs (fst (ProductUsecase.create iphone iphone_world)) = docs iphone_world
  /\ docs (fst (ProductUsecase.create iphone
                  (with_events [Quiet; Fails (OtherException "Simulated DB Error")]
                     empty_world))) = [].
Proof.
  split.
  - destruct (create_adds_at_most_one iphone iphone_world) as (_ & _ & H).
    by apply (H I (Insertion "Product with this name already exists.")).
  - destruct (create_adds_at_most_one iphone
                (with_events [Quiet; Fails (OtherException "Simulated DB Error")]
                   empty_world)) as (H & _ & _).
    destruct (H (Insertion "Failed to insert product: Simulated DB Error") eq_refl)
      as [-> | ->]; reflexivity.
Defined.

(** X7: the same name twice.  After a successful [create], a second [create]
    with the same name, its calls undisturbed, raises [InsertionException]
    with the message "Product with this name already exists." and leaves the
    collection as the first one left it, whatever the other fields of the
    second body. *)
Theorem create_same_name_twice (body body' : ProductIn) (w w' : World)
    (out : ProductOut) :
  ProductUsecase.create body w = (w', Ok out) ->
  in_name body' = in_name body ->
  undisturbed 2 w' ->
  exists e,
    snd (ProductUsecase.create body' w') = Raise e
    /\ is_insertion_error e "Product with this name already exists."
    /\ docs (fst (ProductUsecase.create body' w')) = docs w'.
Proof.
  intros Hc Hn Hq.
  pose proof (create_docs body w) as Hd. rewrite Hc in Hd. cbn [fst snd] in Hd.
  destruct Hd as (Hd & _ & _).
  assert (Hdup : snd (ProductUsecase.create_try body' w')
                 = Raise (DuplicateKeyError duplicate_key_text)).
  { apply create_try_duplicate; [done|].
    exists (stored (next_oid w) (new_model body w)). split.
    - rewrite Hd. apply in_app_iff. right. by left.
    - by rewrite Hn. }
  pose proof (create_docs body' w') as Hd'.
  rewrite create_by_try in *.
  destruct (ProductUsecase.create_try body' w') as [w2 [m|e]]; [done|].
  cbn in Hdup. injection Hdup as ->. cbn [fst snd insertion_message] in *.
  eexists. split; [reflexivity|]. split; [by apply Insertion_message|].
  pose proof (undisturbed_docs_arrive 1 w' Hq) as H1.
  destruct (undisturbed_arrive 1 w' Hq) as [_ Hq1].
  pose proof (undisturbed_docs_arrive 0 _ Hq1) as H2.
  destruct Hd' as [[-> | ->] _]; congruence.
Qed.

Lemma create_same_name_twice_witness :
  exists e,
    snd (ProductUsecase.create
           (mkProductIn "Iphone 14 Pro Max" 1 (mkDecimal 1 0) false) iphone_world)
    = Raise e
    /\ is_insertion_error e "Product with this name already exists."
    /\ docs (fst (ProductUsecase.create
                    (mkProductIn "Iphone 14 Pro Max" 1 (mkDecimal 1 0) false)
                    iphone_world)) = docs iphone_world.
Proof.
  apply (create_same_name_twice iphone
           (mkProductIn "Iphone 14 Pro Max" 1 (mkDecimal 1 0) false)
           empty_world iphone_world (view (new_model iphone empty_world)));
    [reflexivity | reflexivity | exact I].
Defined.

(** ** What each use case leaves in the collection *)

Lemma remove_first_spec p ds :
  remove_first p ds = ds
  \/ exists pre d post, ds = pre ++ d :: post /\ remove_first p ds = pre ++ post.
Proof.
  unfold remove_first. pose proof (split_first_spec p ds) as H.
  destruct (split_first p ds) as [[[pre d] post]|]; [|by left].
  destruct H as (-> & _). right. by exists pre, d, post.
Qed.

Lemma arrive_docs w :
  docs (arrive w) = docs w
  \/ exists pre d post, docs w = pre ++ d :: post /\ docs (arrive w) = pre ++ post.
Proof.
  unfold arrive. destruct (events w) as [|[| |j] evs]; world_simpl; try by left.
  apply remove_first_spec.
Qed.

(** [delete] leaves the collection as one of its calls found it, or without
    the first document that carried the identifier. *)
Lemma delete_world id w :
  unique_name (fst (ProductUsecase.delete id w)) = unique_name w
  /\ (docs (fst (ProductUsecase.delete id w)) = docs (arrive w)
      \/ docs (fst (ProductUsecase.delete id w)) = docs (arrive (arrive w))
      \/ docs (fst (ProductUsecase.delete id w))
         = remove_first (matches (by_id id)) (docs (arrive (arrive w)))).
Proof.
  destruct (arrive_keeps w) as (Hu1 & _).
  destruct (arrive_keeps (arrive w)) as (Hu2 & _). rewrite Hu1 in Hu2.
  unfold ProductUsecase.delete, bind, find_one.
  destruct (collection_call_cases
    (fun w0 => match split_first (matches (by_id id)) (docs w0) with
               | Some (_, d, _) => (w0, Ok (Some d))
               | None => (w0, Ok None)
               end) w) as [[e ->] | ->]; [split; [done | by left]|].
  destruct (split_first _ (docs (arrive w))) as [[[pre d] post]|];
    [|split; [done | by left]].
  destruct (falsy (Some d)); [split; [done | by left]|].
  unfold delete_one.
  destruct (collection_call_cases
    (fun w0 => match split_first (matches (by_id id)) (docs w0) with
               | Some (pre0, _, post0) => (set_docs (pre0 ++ post0) w0, Ok 1)
               | None => (w0, Ok 0)
               end) (arrive w)) as [[e ->] | ->];
    [split; [done | right; by left]|].
  unfold remove_first.
  destruct (split_first _ (docs (arrive (arrive w)))) as [[[pre' d'] post']|].
  - split; [done | right; by right].
  - split; [done | right; by left].
Qed.

(** [update] leaves the collection as it was, as its call found it, or with
    the first document that carries the identifier replaced by the merge of
    the patch over it, whose name the unique index has accepted. *)
Lemma update_world datetime id body w :
  unique_name (fst (ProductUsecase.update_with datetime id body w)) = unique_name w
  /\ (docs (fst (ProductUsecase.update_with datetime id body w)) = docs w
      \/ docs (fst (ProductUsecase.update_with datetime id body w)) = docs (arrive w)
      \/ exists pre d post,
           docs (arrive w) = pre ++ d :: post
           /\ d !! "id" = Some (VUuid id)
           /\ docs (fst (ProductUsecase.update_with datetime id body w))
              = pre ++ (ProductUsecase.update_data body (clock w (ticks w)) ∪ d) :: post
           /\ (unique_name w = true ->
               name_taken
                 ((ProductUsecase.update_data body (clock w (ticks w)) ∪ d) !! "name")
                 (pre ++ post) = false)).
Proof.
  unfold ProductUsecase.update_with. destruct datetime; [split; [done | by left]|].
  unfold bind, datetime_utcnow, utcnow.
  set (w1 := set_ticks (S (ticks w)) w). set (upd := ProductUsecase.update_data body _).
  destruct (arrive_ext w1 w eq_refl eq_refl) as [Hd1 _].
  destruct (arrive_keeps w1) as (Hu1 & _).
  change (unique_name w1) with (unique_name w) in Hu1.
  unfold find_one_and_update. cbv zeta.
  match goal with
  | |- context [collection_call ?op w1] =>
      destruct (collection_call_cases op w1) as [[e ->] | ->]
  end; [split; [done | right; by left]|].
  pose proof (split_first_spec (matches (by_id id)) (docs (arrive w1))) as Hsp.
  destruct (split_first _ (docs (arrive w1))) as [[[pre d] post]|];
    [|split; [done | right; by left]].
  destruct Hsp as (Hds & Hd & _). rewrite matches_by_id in Hd.
  apply bool_decide_eq_true in Hd.
  destruct (unique_name (arrive w1) && name_taken _ _) eqn:Hchk;
    [split; [done | right; by left]|].
  assert (Hfin : forall c : M ProductUpdateOut,
            (forall w0, fst (c w0) = w0) ->
            unique_name (fst (c (set_docs (pre ++ upd ∪ d :: post) (arrive w1))))
            = unique_name w
            /\ docs (fst (c (set_docs (pre ++ upd ∪ d :: post) (arrive w1))))
               = pre ++ upd ∪ d :: post)
    by (intros c Hc; by rewrite Hc).
  destruct (Hfin (fun w0 => if falsy (Some (upd ∪ d))
                            then raise (NotFound (not_found_message id)) w0
                            else lift (ProductUpdateOut_init
                                         (default ∅ (Some (upd ∪ d)))) w0))
    as [Hfu Hfd]; [intros w0; by destruct (falsy _)|].
  assert (Hsame : forall (b : bool) (x y : M ProductUpdateOut) w0,
            (if b then x else y) w0 = if b then x w0 else y w0)
    by (by intros []).
  rewrite Hsame. split; [exact Hfu|]. right. right.
  exists pre, d, post. rewrite <- Hd1. repeat split; try done.
  intros Hu. rewrite Hu1, Hu in Hchk. exact Hchk.
Qed.

(** ** Invariant: names stay unique *)

Lemma names_of_app l1 l2 : names_of (l1 ++ l2) = names_of l1 ++ names_of l2.
Proof. apply map_app. Qed.

Lemma NoDup_names_remove pre d post :
  NoDup (names_of (pre ++ d :: post)) -> NoDup (names_of (pre ++ post)).
Proof.
  rewrite !names_of_app. cbn [names_of map]. intros H.
  rewrite <- Permutation_middle in H. by apply NoDup_cons in H as [_ H].
Qed.

Lemma NoDup_names_arrive w :
  NoDup (names_of (docs w)) -> NoDup (names_of (docs (arrive w))).
Proof.
  intros H. destruct (arrive_docs w) as [-> | (pre & d & post & Hw & ->)]; [done|].
  rewrite Hw in H. by eapply NoDup_names_remove.
Qed.

Lemma name_taken_false_not_in k ds :
  name_taken k ds = false -> k ∉ names_of ds.
Proof.
  intros Hf Hin. apply list_elem_of_In, in_map_iff in Hin as (d & Hd & Hin).
  assert (name_taken k ds = true); [|congruence].
  apply existsb_exists. exists d. split; [done|]. by apply bool_decide_eq_true.
Qed.

Lemma NoDup_names_replace pre d d' post :
  NoDup (names_of (pre ++ d :: post)) ->
  name_taken (d' !! "name") (pre ++ post) = false ->
  NoDup (names_of (pre ++ d' :: post)).
Proof.
  intros Hnd Hfree. apply NoDup_names_remove in Hnd.
  apply name_taken_false_not_in in Hfree. rewrite names_of_app in *.
  cbn [names_of map]. rewrite <- Permutation_middle. by apply NoDup_cons.
Qed.

Lemma names_unique_arrive w : names_unique w -> names_unique (arrive w).
Proof.
  intros [Hu Hnd]. split; [|by apply NoDup_names_arrive].
  by destruct (arrive_keeps w) as (-> & _).
Qed.

(** X8: once the unique index exists and the stored names are distinct, every
    use case, whatever it returns or raises and whatever the environment does
    at its collection calls, leaves the index in place and the stored names
    distinct. *)
Theorem use_cases_keep_names_unique (w : World) (body : ProductIn) (id : UUID)
    (min_price max_price : option Decimal) (datetime : datetime_binding)
    (patch : ProductUpdate) :
  names_unique w ->
  names_unique (fst (ProductUsecase.create body w))
  /\ names_unique (fst (ProductUsecase.get id w))
  /\ names_unique (fst (ProductUsecase.query min_price max_price w))
  /\ names_unique (fst (ProductUsecase.update_with datetime id patch w))
  /\ names_unique (fst (ProductUsecase.update id patch w))
  /\ names_unique (fst (ProductUsecase.delete id w)).
Proof.
  intros Hinv. pose proof (names_unique_arrive w Hinv) as H1.
  pose proof (names_unique_arrive _ H1) as H2.
  assert (Hread : fst (ProductUsecase.get id w) = arrive w
                  /\ fst (ProductUsecase.query min_price max_price w) = arrive w).
  { split.
    - unfold ProductUsecase.get, bind, find_one, collection_call.
      destruct (events w) as [|[|e|j] evs]; try reflexivity.
      all: destruct (split_first _ _) as [[[pre d] post]|]; [|reflexivity].
      all: by destruct (falsy (Some d)).
    - unfold ProductUsecase.query, bind, find, collection_call.
      destruct (events w) as [|[|e|j] evs]; try reflexivity.
      all: apply mapM_lift_world. }
  destruct Hread as [-> ->].
  assert (Hupd : forall b, names_unique (fst (ProductUsecase.update_with b id patch w))).
  { intros b. destruct (update_world b id patch w) as [Hu Hd].
    destruct Hinv as [Hi Hnd]. destruct H1 as [_ Hnd1].
    split; [by rewrite Hu|].
    destruct Hd as [-> | [-> | (pre & d & post & Hds & _ & -> & Hfree)]]; try done.
    rewrite Hds in Hnd1. by apply (NoDup_names_replace pre d _ post Hnd1), Hfree. }
  repeat split; try apply H1; try apply Hupd.
  - pose proof (create_docs body w) as Hc.
    destruct (snd (ProductUsecase.create body w)).
    + by destruct Hc as (_ & _ & -> & _).
    + destruct Hc as [_ Hc]. apply Hc, Hinv.
  - pose proof (create_docs body w) as Hc.
    destruct (snd (ProductUsecase.create body w)).
    + destruct Hc as (-> & _ & _ & Hfree). rewrite names_of_app.
      apply name_taken_false_not_in in Hfree. destruct H2 as [_ H2].
      cbn [names_of map]. rewrite <- Permutation_cons_append.
      apply NoDup_cons. split; [exact Hfree | exact H2].
    + destruct Hc as [[-> | ->] _]; [apply H1 | apply H2].
  - destruct (delete_world id w) as [-> _]. apply Hinv.
  - destruct (delete_world id w) as [_ [-> | [-> | ->]]]; [apply H1 | apply H2 |].
    destruct H2 as [_ H2].
    destruct (remove_first_spec (matches (by_id id)) (docs (arrive (arrive w))))
      as [-> | (pre & d & post & Hds & ->)]; [done|].
    rewrite Hds in H2. by eapply NoDup_names_remove.
Qed.

Lemma use_cases_keep_names_unique_witness :
  names_unique (fst (ProductUsecase.create iphone iphone_world))
  /\ names_unique
       (fst (ProductUsecase.create
               (mkProductIn "Tablet" 20 (mkDecimal 300000 (-2)) false) iphone_world))
  /\ names_unique (fst (ProductUsecase.delete 1%N iphone_world)).
Proof.
  assert (Hinv : names_unique iphone_world).
  { split; [reflexivity|]. apply NoDup_singleton. }
  split; [|split].
  - by destruct (use_cases_keep_names_unique iphone_world iphone 1%N None None
                   DatetimeModule price_patch Hinv) as (H & _).
  - by destruct (use_cases_keep_names_unique iphone_world
                   (mkProductIn "Tablet" 20 (mkDecimal 300000 (-2)) false) 1%N None
                   None DatetimeModule price_patch Hinv) as (H & _).
  - by destruct (use_cases_keep_names_unique iphone_world iphone 1%N None None
                   DatetimeModule price_patch Hinv) as (_ & _ & _ & _ & _ & H).
Defined.

(** ** Invariant: stored documents stay well formed *)

Lemma ProductOut_init_typed kw i n q p s c u :
  kw !! "id" = Some (VUuid i) -> kw !! "name" = Some (VStr n) ->
  kw !! "quantity" = Some (VInt q) -> kw !! "price" = Some (VDec p) ->
  kw !! "status" = Some (VBool s) -> kw !! "created_at" = Some (VDate c) ->
  kw !! "updated_at" = Some (VDate u) ->
  ProductOut_init kw = Ok (mkProductOut i n q p s c u).
Proof.
  intros Hi Hn Hq Hp Hs Hc Hu. unfold ProductOut_init.
  by rewrite Hi, Hn, Hq, Hp, Hs, Hc, Hu.
Qed.

Lemma well_formed_stored oid m : well_formed (stored oid m).
Proof. exists (view m). apply ProductOut_init_stored. Qed.

Lemma lookup_merge_typed (upd d : gmap string value) k {A} (inj : A -> value)
    (patch : option A) (old : A) :
  upd !! k = inj <$> patch -> d !! k = Some (inj old) ->
  (upd ∪ d) !! k = Some (inj (default old patch)).
Proof.
  intros Hu Hd. destruct patch as [v|]; cbn in *.
  - by apply lookup_union_Some_l.
  - by rewrite lookup_union_r.
Qed.

(** The merge of a patch over a well-formed document is well formed, with
    each field taken from the patch where it has a value. *)
Lemma well_formed_merge body now d out :
  ProductOut_init d = Ok out ->
  ProductOut_init (ProductUsecase.update_data body now ∪ d)
  = Ok (mkProductOut (out_id out)
          (default (out_name out) (up_name body))
          (default (out_quantity out) (up_quantity body))
          (default (out_price out) (up_price body))
          (default (out_status out) (up_status body))
          (out_created_at out) now).
Proof.
  intros Hout. apply ProductOut_init_ok in Hout as (Hi & Hn & Hq & Hp & Hs & Hc & Hu).
  destruct (update_data_lookup body now) as (Un & Uq & Up & Us & Uu & Uk).
  destruct (update_data_no_id body now) as [Ui Uc].
  apply ProductOut_init_typed.
  - by rewrite lookup_union_r.
  - by apply (lookup_merge_typed _ _ _ VStr).
  - by apply (lookup_merge_typed _ _ _ VInt).
  - by apply (lookup_merge_typed _ _ _ VDec).
  - by apply (lookup_merge_typed _ _ _ VBool).
  - by rewrite lookup_union_r.
  - by apply lookup_union_Some_l.
Qed.

Lemma all_well_formed_arrive w :
  all_well_formed (docs w) -> all_well_formed (docs (arrive w)).
Proof.
  intros H. destruct (arrive_docs w) as [-> | (pre & d & post & Hw & ->)]; [done|].
  intros x Hx. apply H. rewrite Hw. apply in_app_iff.
  apply in_app_iff in Hx as [Hx | Hx]; [by left | right; by right].
Qed.

(** X9: a collection in which every document is accepted by the output
    schema stays so under every use case, whatever it returns or raises:
    [create] appends a dump of the model, [update] writes the merge of a typed
    patch over an accepted document, and [delete], [get] and [query] add
    nothing. *)
Theorem use_cases_keep_documents_well_formed (w : World) (body : ProductIn)
    (id : UUID) (min_price max_price : option Decimal) (datetime : datetime_binding)
    (patch : ProductUpdate) :
  all_well_formed (docs w) ->
  all_well_formed (docs (fst (ProductUsecase.create body w)))
  /\ all_well_formed (docs (fst (ProductUsecase.get id w)))
  /\ all_well_formed (docs (fst (ProductUsecase.query min_price max_price w)))
  /\ all_well_formed (docs (fst (ProductUsecase.update_with datetime id patch w)))
  /\ all_well_formed (docs (fst (ProductUsecase.update id patch w)))
  /\ all_well_formed (docs (fst (ProductUsecase.delete id w))).
Proof.
  intros Hinv. pose proof (all_well_formed_arrive w Hinv) as H1.
  pose proof (all_well_formed_arrive _ H1) as H2.
  assert (Hread : fst (ProductUsecase.get id w) = arrive w
                  /\ fst (ProductUsecase.query min_price max_price w) = arrive w).
  { split.
    - unfold ProductUsecase.get, bind, find_one, collection_call.
      destruct (events w) as [|[|e|j] evs]; try reflexivity.
      all: destruct (split_first _ _) as [[[pre d] post]|]; [|reflexivity].
      all: by destruct (falsy (Some d)).
    - unfold ProductUsecase.query, bind, find, collection_call.
      destruct (events w) as [|[|e|j] evs]; try reflexivity.
      all: apply mapM_lift_world. }
  destruct Hread as [-> ->].
  assert (Hupd : forall b,
            all_well_formed (docs (fst (ProductUsecase.update_with b id patch w)))).
  { intros b. destruct (update_world b id patch w) as [_ Hd].
    destruct Hd as [-> | [-> | (pre & d & post & Hds & _ & -> & _)]]; try done.
    intros x Hx. apply in_app_iff in Hx as [Hx | [<- | Hx]].
    - apply H1. rewrite Hds. apply in_app_iff. by left.
    - destruct (H1 d) as [out Hout];
        [rewrite Hds; apply in_app_iff; right; by left|].
      eexists. by apply well_formed_merge.
    - apply H1. rewrite Hds. apply in_app_iff. right. by right. }
  repeat split; try apply H1; try apply Hupd.
  - pose proof (create_docs body w) as Hc.
    destruct (snd (ProductUsecase.create body w)).
    + destruct Hc as (-> & _). intros x Hx.
      apply in_app_iff in Hx as [Hx | [<- | []]];
        [by apply H2 | apply well_formed_stored].
    + by destruct Hc as [[-> | ->] _].
  - destruct (delete_world id w) as [_ [-> | [-> | ->]]]; [apply H1 | apply H2 |].
    destruct (remove_first_spec (matches (by_id id)) (docs (arrive (arrive w))))
      as [-> | (pre & d & post & Hds & ->)]; [done|].
    intros x Hx. apply H2. rewrite Hds. apply in_app_iff.
    apply in_app_iff in Hx as [Hx | Hx]; [by left | right; by right].
Qed.

Lemma use_cases_keep_documents_well_formed_witness :
  all_well_formed (docs (fst (ProductUsecase.create iphone empty_world)))
  /\ all_well_formed
       (docs (fst (ProductUsecase.update_with DatetimeClass 1%N price_patch
                     iphone_world)))
  /\ all_well_formed (docs (fst (ProductUsecase.delete 1%N iphone_world))).
Proof.
  assert (H0 : all_well_formed (docs empty_world)) by (by intros d []).
  assert (H1 : all_well_formed (docs iphone_world)).
  { intros d [<- | []]. apply well_formed_stored. }
  split; [|split].
  - by destruct (use_cases_keep_documents_well_formed empty_world iphone 1%N None
                   None DatetimeClass price_patch H0) as (H & _).
  - by destruct (use_cases_keep_documents_well_formed iphone_world iphone 1%N None
                   None DatetimeClass price_patch H1) as (_ & _ & _ & H & _).
  - by destruct (use_cases_keep_documents_well_formed iphone_world iphone 1%N None
                   None DatetimeClass price_patch H1) as (_ & _ & _ & _ & _ & H).
Defined.

Lemma mapM_init_well_formed l w :
  all_well_formed l ->
  exists outs,
    mapM (fun item => lift (ProductOut_init item)) l w = (w, Ok outs)
    /\ Forall2 (fun d out => ProductOut_init d = Ok out) l outs.
Proof.
  induction l as [|d l IH]; intros Hwf.
  - exists []. by split.
  - destruct (Hwf d) as [out Hout]; [by left|].
    destruct IH as (outs & Hm & Hall); [intros x Hx; apply Hwf; by right|].
    exists (out :: outs). cbn [mapM]. unfold bind at 1, lift at 1. rewrite Hout.
    unfold bind at 1. rewrite Hm. split; [reflexivity | by constructor].
Qed.

(** X10: over a collection of well-formed documents whose call the driver
    serves, the reads never fail validation.  [query] returns one view per
    document that matches its filter, in the store's order; [get] returns
    the view of the first document that carries the identifier, or raises
    [NotFoundException] when none does. *)
Theorem reads_succeed_on_well_formed (id : UUID)
    (min_price max_price : option Decimal) (w : World) :
  served w ->
  all_well_formed (docs w) ->
  (exists outs,
     snd (ProductUsecase.query min_price max_price w) = Ok outs
     /\ Forall2 (fun d out => ProductOut_init d = Ok out)
          (List.filter (matches (ProductUsecase.filter_query min_price max_price))
             (docs (arrive w))) outs)
  /\ ((exists out d,
         snd (ProductUsecase.get id w) = Ok out
         /\ In d (docs (arrive w)) /\ ProductOut_init d = Ok out /\ out_id out = id)
      \/ (snd (ProductUsecase.get id w) = Raise (NotFound (not_found_message id))
          /\ absent id (docs (arrive w)))).
Proof.
  intros Hs Hwf. pose proof (all_well_formed_arrive w Hwf) as H1. split.
  - unfold ProductUsecase.query, bind, find. rewrite (collection_call_served _ w Hs).
    destruct (mapM_init_well_formed
                (List.filter (matches (ProductUsecase.filter_query min_price max_price))
                   (docs (arrive w))) (arrive w)) as (outs & -> & Hall).
    + intros d Hd. apply H1. by apply filter_In in Hd as [Hd _].
    + by exists outs.
  - unfold ProductUsecase.get, bind, find_one. rewrite (collection_call_served _ w Hs).
    pose proof (split_first_spec (matches (by_id id)) (docs (arrive w))) as Hsp.
    destruct (split_first _ (docs (arrive w))) as [[[pre d] post]|].
    + destruct Hsp as (Hds & Hd & _). rewrite matches_by_id in Hd.
      apply bool_decide_eq_true in Hd. left.
      assert (Hin : In d (docs (arrive w)))
        by (rewrite Hds; apply in_app_iff; right; by left).
      destruct (H1 d Hin) as [out Hout]. exists out, d.
      rewrite (falsy_with_key d "id" _ Hd). unfold lift. cbn [snd default].
      split; [exact Hout|]. split; [exact Hin|]. split; [exact Hout|].
      apply ProductOut_init_ok in Hout as (Hi & _). rewrite Hd in Hi.
      by injection Hi.
    + right. split; [reflexivity|]. intros x Hx Hid. specialize (Hsp x Hx).
      rewrite matches_by_id in Hsp. by apply bool_decide_eq_false in Hsp.
Qed.

Lemma reads_succeed_on_well_formed_witness :
  (exists outs,
     snd (ProductUsecase.query (Some (dec_of_Z 5000)) None varied_world) = Ok outs
     /\ length outs = 3%nat)
  /\ (exists out, snd (ProductUsecase.get 3%N varied_world) = Ok out
        /\ out_name out = "Laptop High").
Proof.
  assert (Hwf : all_well_formed (docs varied_world)).
  { intros d Hd. apply in_map_iff in Hd as ([oid m] & <- & _).
    apply well_formed_stored. }
  destruct (reads_succeed_on_well_formed 3%N (Some (dec_of_Z 5000)) None varied_world
              I Hwf) as [(outs & Hq & Hall) Hg].
  split.
  - exists outs. split; [exact Hq|]. apply Forall2_length in Hall.
    by rewrite <- Hall.
  - destruct Hg as [(out & d & Hg & _) | [Hg _]]; [|discriminate Hg].
    exists out. split; [exact Hg|].
    assert (Ho : snd (ProductUsecase.get 3%N varied_world)
                 = Ok (view (product 3%N "Laptop High" 3 (mkDecimal 900000 (-2)) true)))
      by reflexivity.
    rewrite Hg in Ho. by injection Ho as ->.
Defined.

(** ** The order on prices and the algebra of [query] *)

Lemma dec_scaled_shift a e e' :
  e' <= e -> e <= dec_exp a -> dec_scaled a e' = dec_scaled a e * 10 ^ (e - e').
Proof.
  intros H1 H2. unfold dec_scaled.
  replace (dec_exp a - e') with ((dec_exp a - e) + (e - e')) by lia.
  rewrite Z.pow_add_r by lia. lia.
Qed.

Lemma ltb_scale x y k : 0 < k -> (x * k <? y * k) = (x <? y).
Proof.
  intros Hk. destruct (Z.ltb_spec x y) as [H|H].
  - apply Z.ltb_lt. by apply Z.mul_lt_mono_pos_r.
  - apply Z.ltb_ge. by apply Z.mul_le_mono_nonneg_r; [lia|].
Qed.

Lemma eqb_scale x y k : 0 < k -> (x * k =? y * k) = (x =? y).
Proof.
  intros Hk. destruct (Z.eqb_spec x y) as [->|H].
  - apply Z.eqb_refl.
  - apply Z.eqb_neq. intros Heq. apply H. by apply Z.mul_cancel_r in Heq; [|lia].
Qed.

(** Comparing at any common exponent below both gives the same answer. *)
Lemma dec_ltb_scaled a b e :
  e <= dec_exp a -> e <= dec_exp b ->
  dec_ltb a b = (dec_scaled a e <? dec_scaled b e).
Proof.
  intros Ha Hb. unfold dec_ltb, dec_align.
  set (m := Z.min (dec_exp a) (dec_exp b)).
  rewrite (dec_scaled_shift a m e), (dec_scaled_shift b m e) by lia.
  symmetry. apply ltb_scale. apply Z.pow_pos_nonneg; lia.
Qed.

Lemma dec_eqb_scaled a b e :
  e <= dec_exp a -> e <= dec_exp b ->
  dec_eqb a b = (dec_scaled a e =? dec_scaled b e).
Proof.
  intros Ha Hb. unfold dec_eqb, dec_align.
  set (m := Z.min (dec_exp a) (dec_exp b)).
  rewrite (dec_scaled_shift a m e), (dec_scaled_shift b m e) by lia.
  symmetry. apply eqb_scale. apply Z.pow_pos_nonneg; lia.
Qed.

Lemma dec_ltb_trans a b c :
  dec_ltb a b = true -> dec_ltb b c = true -> dec_ltb a c = true.
Proof.
  set (e := Z.min (dec_exp a) (Z.min (dec_exp b) (dec_exp c))).
  rewrite (dec_ltb_scaled a b e), (dec_ltb_scaled b c e), (dec_ltb_scaled a c e)
    by lia.
  rewrite !Z.ltb_lt. lia.
Qed.

Lemma dec_ltb_irrefl a : dec_ltb a a = false.
Proof. rewrite (dec_ltb_scaled a a (dec_exp a)) by lia. apply Z.ltb_irrefl. Qed.

Lemma dec_ltb_eqb_l a a' b :
  dec_eqb a a' = true -> dec_ltb a b = dec_ltb a' b.
Proof.
  set (e := Z.min (dec_exp a) (Z.min (dec_exp a') (dec_exp b))).
  rewrite (dec_eqb_scaled a a' e), (dec_ltb_scaled a b e), (dec_ltb_scaled a' b e)
    by lia.
  intros H. apply Z.eqb_eq in H. by rewrite H.
Qed.

Lemma dec_ltb_eqb_r a b b' :
  dec_eqb b b' = true -> dec_ltb a b = dec_ltb a b'.
Proof.
  set (e := Z.min (dec_exp a) (Z.min (dec_exp b) (dec_exp b'))).
  rewrite (dec_eqb_scaled b b' e), (dec_ltb_scaled a b e), (dec_ltb_scaled a b' e)
    by lia.
  intros H. apply Z.eqb_eq in H. by rewrite H.
Qed.

(** What [query] returns over stored products served undisturbed. *)
Lemma query_stored w ps mn mx :
  calm w -> docs w = stored_all ps ->
  ProductUsecase.query mn mx w
  = (arrive w,
     Ok (map view (List.filter (fun m => open_range mn mx (pm_price m)) (map snd ps)))).
Proof.
  intros Hcalm Hdocs. unfold ProductUsecase.query, find, bind.
  destruct (collection_call_calm
    (fun w0 => (w0, Ok (List.filter (matches (ProductUsecase.filter_query mn mx))
                          (docs w0)))) w Hcalm) as [-> Hd].
  rewrite Hd, Hdocs, filter_stored_all, mapM_init_stored_all.
  do 2 f_equal. exact (views_of_selected _ ps).
Qed.

Lemma filter_ext_in {A} (f g : A -> bool) l :
  (forall x, In x l -> f x = g x) -> List.filter f l = List.filter g l.
Proof.
  induction l as [|x l IH]; [done|]. intros H. cbn.
  rewrite (H x) by (by left). rewrite IH; [done|]. intros y Hy. apply H. by right.
Qed.

Lemma filter_none {A} (f : A -> bool) l :
  (forall x, In x l -> f x = false) -> List.filter f l = [].
Proof.
  induction l as [|x l IH]; [done|]. intros H. cbn.
  rewrite (H x) by (by left). apply IH. intros y Hy. apply H. by right.
Qed.

Lemma filter_andb {A} (f g : A -> bool) l :
  List.filter (fun x => f x && g x) l = List.filter g (List.filter f l).
Proof.
  induction l as [|x l IH]; [done|]. cbn. destruct (f x); cbn; [|exact IH].
  destruct (g x); by rewrite IH.
Qed.

Lemma filter_map_view sel (f : ProductOut -> bool) l :
  (forall m, f (view m) = sel m) ->
  List.filter f (map view l) = map view (List.filter sel l).
Proof.
  intros H. induction l as [|m l IH]; [done|]. cbn. rewrite H.
  destruct (sel m); cbn; by rewrite IH.
Qed.

(** X11: the price range of [query] over stored products served undisturbed.
    A range whose minimum is not below its maximum selects nothing, and the
    result is the empty list, not an error.  A product priced exactly at a
    bound, in whatever decimal representation, is never returned.  The result
    for both bounds is the result for the minimum alone with the products at
    or above the maximum taken out; and two bounds of the same numeric value
    (5000 and 5000.00) select the same products. *)
Theorem query_range_algebra (w : World) (ps : list (N * ProductModel))
    (mn mx : Decimal) :
  calm w ->
  docs w = stored_all ps ->
  (dec_ltb mn mx = false ->
   snd (ProductUsecase.query (Some mn) (Some mx) w) = Ok [])
  /\ (forall outs o,
        snd (ProductUsecase.query (Some mn) (Some mx) w) = Ok outs -> In o outs ->
        dec_eqb (out_price o) mn = false /\ dec_eqb (out_price o) mx = false)
  /\ (forall outs,
        snd (ProductUsecase.query (Some mn) None w) = Ok outs ->
        snd (ProductUsecase.query (Some mn) (Some mx) w)
        = Ok (List.filter (fun o => dec_ltb (out_price o) mx) outs))
  /\ (forall mn' mx',
        dec_eqb mn mn' = true -> dec_eqb mx mx' = true ->
        ProductUsecase.query (Some mn') (Some mx') w
        = ProductUsecase.query (Some mn) (Some mx) w).
Proof.
  intros Hcalm Hdocs. rewrite !(query_stored w ps) by done. cbn [snd open_range].
  split; [|split; [|split]].
  - intros Hinv. f_equal. rewrite filter_none; [done|]. intros m _.
    apply not_true_is_false. intros H. apply andb_true_iff in H as [H1 H2].
    by rewrite (dec_ltb_trans _ _ _ H1 H2) in Hinv.
  - intros outs o [= <-] Hin. apply in_map_iff in Hin as (m & <- & Hin).
    apply filter_In in Hin as [_ Hsel]. apply andb_true_iff in Hsel as [H1 H2].
    cbn [out_price view]. split; apply not_true_is_false; intros Heq.
    + rewrite (dec_ltb_eqb_r _ _ _ Heq), dec_ltb_irrefl in H1. discriminate.
    + rewrite (dec_ltb_eqb_l _ _ _ Heq), dec_ltb_irrefl in H2. discriminate.
  - intros outs [= <-]. f_equal.
    rewrite (filter_map_view (fun m => dec_ltb (pm_price m) mx)) by done.
    f_equal. apply filter_andb.
  - intros mn' mx' Hmn Hmx. rewrite !(query_stored w ps) by done.
    cbn [open_range]. do 3 f_equal. apply filter_ext_in. intros m _.
    by rewrite (dec_ltb_eqb_l _ _ _ Hmn), (dec_ltb_eqb_r _ _ _ Hmx).
Qed.

Lemma query_range_algebra_witness :
  snd (ProductUsecase.query (Some (dec_of_Z 8000)) (Some (dec_of_Z 5000)) varied_world)
    = Ok []
  /\ names (List.filter (fun o => dec_ltb (out_price o) (dec_of_Z 6500))
              (map view (map snd varied_prices))) = ["Laptop Basic"; "Tablet"]
  /\ ProductUsecase.query (Some (mkDecimal 500000 (-2))) (Some (mkDecimal 8 3))
       varied_world
     = ProductUsecase.query (Some (dec_of_Z 5000)) (Some (dec_of_Z 8000)) varied_world.
Proof.
  split; [|split].
  - destruct (query_range_algebra varied_world varied_prices (dec_of_Z 8000)
                (dec_of_Z 5000) I eq_refl) as (H & _).
    by apply H.
  - reflexivity.
  - destruct (query_range_algebra varied_world varied_prices (dec_of_Z 5000)
                (dec_of_Z 8000) I eq_refl) as (_ & _ & _ & H).
    by apply H.
Defined.

(** ** Frame: other identifiers *)

Lemma with_id_other_cons j d l (id : UUID) :
  d !! "id" = Some (VUuid id) -> j <> id -> with_id j (d :: l) = with_id j l.
Proof.
  intros Hd Hne. rewrite with_id_cons, matches_by_id.
  rewrite bool_decide_eq_false_2; [done|]. rewrite Hd. by intros [= ->].
Qed.

Lemma with_id_other_middle j pre d d' post (id : UUID) :
  d !! "id" = Some (VUuid id) -> d' !! "id" = Some (VUuid id) -> j <> id ->
  with_id j (pre ++ d' :: post) = with_id j (pre ++ d :: post).
Proof.
  intros Hd Hd' Hne.
  by rewrite !with_id_app, (with_id_other_cons j d post id),
    (with_id_other_cons j d' post id).
Qed.

Lemma with_id_other_remove j id ds :
  j <> id -> with_id j (remove_first (matches (by_id id)) ds) = with_id j ds.
Proof.
  intros Hne. unfold remove_first.
  pose proof (split_first_spec (matches (by_id id)) ds) as H.
  destruct (split_first _ ds) as [[[pre d] post]|]; [|done].
  destruct H as (-> & Hd & _). rewrite matches_by_id in Hd.
  apply bool_decide_eq_true in Hd.
  by rewrite !with_id_app, (with_id_other_cons j d post id).
Qed.

(** X13: with their collection calls undisturbed, [update] and [delete] of an
    identifier leave every document that carries another identifier in
    place, unchanged and in order, whatever they return or raise; [update]
    keeps the number of documents and [delete] removes at most one. *)
Theorem update_and_delete_touch_one_id (datetime : datetime_binding) (id : UUID)
    (patch : ProductUpdate) (w : World) :
  undisturbed 2 w ->
  (forall j, j <> id ->
     with_id j (docs (fst (ProductUsecase.update_with datetime id patch w)))
     = with_id j (docs w)
     /\ with_id j (docs (fst (ProductUsecase.delete id w))) = with_id j (docs w))
  /\ length (docs (fst (ProductUsecase.update_with datetime id patch w)))
     = length (docs w)
  /\ (length (docs w) <= S (length (docs (fst (ProductUsecase.delete id w)))))%nat
  /\ (length (docs (fst (ProductUsecase.delete id w))) <= length (docs w))%nat.
Proof.
  intros Hq.
  pose proof (undisturbed_docs_arrive 1 w Hq) as H1.
  destruct (undisturbed_arrive 1 w Hq) as [_ Hq1].
  pose proof (undisturbed_docs_arrive 0 _ Hq1) as H2. rewrite H1 in H2.
  destruct (update_world datetime id patch w) as [_ Hu].
  destruct (delete_world id w) as [_ Hd]. rewrite H1, H2 in Hd. rewrite H1 in Hu.
  assert (Hlen : forall p ds,
            (length ds <= S (length (remove_first p ds)))%nat
            /\ (length (remove_first p ds) <= length ds)%nat).
  { intros p ds.
    destruct (remove_first_spec p ds) as [-> | (pre & d & post & -> & ->)]; [lia|].
    rewrite !length_app. cbn. lia. }
  split; [|split; [|split]].
  - intros j Hne. split.
    + destruct Hu as [-> | [-> | (pre & d & post & Hds & Hid & -> & _)]]; try done.
      rewrite Hds. apply (with_id_other_middle j pre d _ post id); try done.
      destruct (update_data_no_id patch (clock w (ticks w))) as [Hi _].
      by rewrite lookup_union_r.
    + destruct Hd as [-> | [-> | ->]]; try done. by apply with_id_other_remove.
  - destruct Hu as [-> | [-> | (pre & d & post & -> & _ & -> & _)]]; try done.
    by rewrite !length_app.
  - destruct Hd as [-> | [-> | ->]]; try lia. apply Hlen.
  - destruct Hd as [-> | [-> | ->]]; try lia. apply Hlen.
Qed.

Lemma update_and_delete_touch_one_id_witness :
  with_id 3%N (docs (fst (ProductUsecase.update_with DatetimeClass 2%N price_patch
                            varied_world)))
    = with_id 3%N (docs varied_world)
  /\ with_id 3%N (docs (fst (ProductUsecase.delete 2%N varied_world)))
     = with_id 3%N (docs varied_world)
  /\ length (docs (fst (ProductUsecase.delete 2%N varied_world))) = 4%nat.
Proof.
  destruct (update_and_delete_touch_one_id DatetimeClass 2%N price_patch varied_world I)
    as (H & _).
  destruct (H 3%N) as [Hu Hd]; [done|].
  split; [exact Hu|]. split; [exact Hd | reflexivity].
Defined.

(** ** Messages *)

(** X12: no message is lost to the truthiness test of the constructor.  The
    message of an exception is never empty, whatever was passed; and the
    messages the use cases build, for any identifier and any caught
    exception (even one whose text is empty), are carried verbatim. *)
Theorem messages_survive_the_constructor :
  (forall c m, Exceptions.message (Exceptions.init c m) <> "")
  /\ (forall c m, Exceptions.cls (Exceptions.init c m) = c)
  /\ (forall id, is_not_found_error (NotFound (not_found_message id))
                   ("Product not found with filter: " +:+ str_uuid id))
  /\ (forall e, is_insertion_error (Insertion (insertion_message e))
                  (insertion_message e))
  /\ is_insertion_error (Insertion (insertion_message (OtherException "")))
       "Failed to insert product: ".
Proof.
  split; [|split; [|split; [|split]]].
  - intros [] [[|a m]|]; done.
  - by intros c [[|a m]|].
  - intros id. apply NotFound_message, not_found_message_nonempty.
  - intros e. apply Insertion_message, insertion_message_nonempty.
  - by apply Insertion_message.
Qed.
